(** * FetchRequestPaused: one-shot resolution of a paused Fetch request

    Shallow embedding of
    [packages/puppeteer-core/src/cdp/FetchRequestPaused.ts] and of the
    helpers it imports, followed by the properties of its three resolution
    operations [continue], [abort] and [respond].

    Conventions of the embedding.
    - A JavaScript string is a Rocq [string], one [ascii] per UTF-16 code
      unit; the texts covered are therefore those over U+0000..U+00FF.
    - A JavaScript number is given by an integer [Z] (status codes, byte
      lengths) and is the Number value of that integer, the nearest double;
      [NaN] and fractions are left out.
    - An optional field ([x?: T], [Partial<...>]) is an [option]; [None] is
      [undefined], and a command field that is [None] is absent on the wire.
    - A plain object used as a dictionary is the list of its own properties
      in creation order (module [Obj]), which is the order of [Object.keys]
      and of [for ... in] for names that are not array indices.  An
      assignment to [__proto__] creates no property.
    - The values of the caller's headers are those on which [String]
      completes: primitives and arrays of them.
    - An [async] method is its synchronous prefix up to the [await]
      ([Begun]) together with the code that runs when the awaited promise
      settles ([resume]). *)

From Stdlib Require Import List String Ascii Bool ZArith NArith Lia.
From Stdlib Require Import DecimalString.
Import ListNotations.
Local Open Scope string_scope.

(* ================================================================== *)
(** ** JavaScript values, truthiness and conversions                   *)
(* ================================================================== *)

Module JS.

(** The values a header entry of a response may hold
    ([string | string[] | unknown]), as far as [String] completes on them:
    primitives and arrays.  An object on which [String] throws would make
    [respond] throw inside its loop, after the flag is raised and before
    any send; no such value is in this type. *)
#[warnings="-register-all"]
Inductive Value : Type :=
| Undefined
| Null
| Bool (b : bool)
| Number (n : Z)
| Str (s : string)
| Array (items : list Value).

(** The decimal digits of an integer that is not negative. *)
Definition digits (x : Z) : string := NilZero.string_of_int (Z.to_int x).

(** The Number value of a positive integer: the double nearest to it, ties
    going to the even significand of 53 bits; [None] when that is
    [Infinity]. *)
Definition nearest_double (x : Z) : option Z :=
  let bits := (Z.log2 x + 1)%Z in
  if (bits <=? 53)%Z then Some x
  else
    let shift := (bits - 53)%Z in
    let q := Z.shiftr x shift in
    let r := (x - Z.shiftl q shift)%Z in
    let half := Z.shiftl 1 (shift - 1) in
    let q' :=
      if (r <? half)%Z then q
      else if (half <? r)%Z then (q + 1)%Z
      else if Z.even q then q else (q + 1)%Z in
    let y := Z.shiftl q' shift in
    if (y <? 2 ^ 1024)%Z then Some y else None.

(** [Number::toString] looks for integers [n], [k] and [s] with [k] digits
    in [s] such that the Number value of [s * 10 ^ (n - k)] is [v]. *)
Definition denotes (v : Z) (k : Z) (c : Z * Z) : bool :=
  let '(n, s) := c in
  (10 ^ (k - 1) <=? s)%Z && (s <? 10 ^ k)%Z &&
  match nearest_double (s * 10 ^ (n - k)) with
  | Some y => (y =? v)%Z
  | None => false
  end.

(** The pairs [(n, s)] with [k] digits that can denote the integer [v]: the
    multiples of a power of ten on either side of [v]. *)
Definition candidates (v : Z) (k : Z) : list (Z * Z) :=
  let d := Z.of_nat (String.length (digits v)) in
  flat_map
    (fun n =>
       if (n <? k)%Z then []
       else
         let f := (v / 10 ^ (n - k))%Z in
         filter (denotes v k) [(n, f); (n, (f + 1)%Z)])
    [d; (d + 1)%Z].

(** Of two candidates the one closer to [v], the even [s] on a tie. *)
Definition closer (v : Z) (k : Z) (a b : Z * Z) : Z * Z :=
  let da := Z.abs (snd a * 10 ^ (fst a - k) - v) in
  let db := Z.abs (snd b * 10 ^ (fst b - k) - v) in
  if (da <? db)%Z then a
  else if (db <? da)%Z then b
  else if Z.even (snd a) then a else b.

Definition closest (v : Z) (k : Z) (cs : list (Z * Z)) : option (Z * Z) :=
  match cs with
  | [] => None
  | c :: rest => Some (fold_left (closer v k) rest c)
  end.

(** The candidate with the fewest digits, [k] being tried in the order of
    [ks]. *)
Fixpoint shortest (v : Z) (ks : list Z) : option (Z * Z * Z) :=
  match ks with
  | [] => None
  | k :: rest =>
      match closest v k (candidates v k) with
      | Some (n, s) => Some (n, k, s)
      | None => shortest v rest
      end
  end.

Fixpoint zeros (n : nat) : string :=
  match n with
  | O => ""
  | S m => String "0" (zeros m)
  end.

(** The text of a positive integer double [v]: its shortest digits, followed
    by zeros up to 21 digits, in exponent form beyond. *)
Definition render (v : Z) : string :=
  match shortest v (map Z.of_nat (seq 1 17)) with
  | Some (n, k, s) =>
      if (n <=? 21)%Z then digits s ++ zeros (Z.to_nat (n - k))
      else
        match digits s with
        | String c EmptyString => String c ("e+" ++ digits (n - 1))
        | String c rest => String c ("." ++ rest ++ "e+" ++ digits (n - 1))
        | EmptyString => ""
        end
  | None => digits v
  end.

(** [String(n)] for the Number value of the integer [n]. *)
Definition NumberToString (n : Z) : string :=
  match n with
  | Z0 => "0"
  | Zpos _ =>
      match nearest_double n with
      | Some v => render v
      | None => "Infinity"
      end
  | Zneg _ =>
      match nearest_double (- n) with
      | Some v => "-" ++ render v
      | None => "-Infinity"
      end
  end.

(** [String(value)].  An array is rendered as [join(',')] does: holes that
    are [undefined] or [null] give the empty string. *)
Fixpoint ToString (value : Value) : string :=
  match value with
  | Undefined => "undefined"
  | Null => "null"
  | Bool true => "true"
  | Bool false => "false"
  | Number n => NumberToString n
  | Str s => s
  | Array items =>
      String.concat ","
        (map (fun item =>
                match item with
                | Undefined | Null => ""
                | _ => ToString item
                end) items)
  end.

(** Truthiness, for the types that the source tests with [if (x)],
    [x ? a : b] and [x || d]. *)
Class Truthy (A : Type) : Type := truthy : A -> bool.

#[global] Instance Truthy_string : Truthy string :=
  fun s => match s with EmptyString => false | String _ _ => true end.

#[global] Instance Truthy_number : Truthy Z :=
  fun n => negb (Z.eqb n 0).

(** An optional value is truthy when it is present and truthy. *)
#[global] Instance Truthy_option {A} `{Truthy A} : Truthy (option A) :=
  fun x => match x with Some a => truthy a | None => false end.

(** [x || d]. *)
Definition or_else {A} `{Truthy A} (x : option A) (d : A) : A :=
  match x with
  | Some a => if truthy a then a else d
  | None => d
  end.

(** The value of [x] inside [if (x) { ... x ... }] and [x ? f(x) : undefined]:
    present only on the truthy branch. *)
Definition if_truthy {A} `{Truthy A} (x : option A) : option A :=
  match x with
  | Some a => if truthy a then Some a else None
  | None => None
  end.

(** [c.toLowerCase()] for one code unit below U+0100: A-Z, and the Latin-1
    capitals U+00C0..U+00DE without the multiplication sign U+00D7. *)
Definition lower_unit (c : ascii) : ascii :=
  let n := N_of_ascii c in
  if ((65 <=? n) && (n <=? 90)
      || (192 <=? n) && (n <=? 214)
      || (216 <=? n) && (n <=? 222))%N
  then ascii_of_N (n + 32)
  else c.

(** [s.toLowerCase()]. *)
Fixpoint toLowerCase (s : string) : string :=
  match s with
  | EmptyString => EmptyString
  | String c rest => String (lower_unit c) (toLowerCase rest)
  end.

(** A capital letter below U+0100: A-Z, or U+00C0..U+00DE without U+00D7. *)
Definition is_capital (c : ascii) : bool :=
  let n := N_of_ascii c in
  ((65 <=? n) && (n <=? 90)
   || (192 <=? n) && (n <=? 214)
   || (216 <=? n) && (n <=? 222))%N.

(** A text with a capital letter in it. *)
Fixpoint has_capital (s : string) : bool :=
  match s with
  | EmptyString => false
  | String c rest => is_capital c || has_capital rest
  end.

(** Two code units that are the same letter: equal, or a capital and its
    small letter, 32 places further. *)
Definition same_letter (c d : ascii) : bool :=
  Ascii.eqb c d
  || is_capital c && (N_of_ascii d =? N_of_ascii c + 32)%N
  || is_capital d && (N_of_ascii c =? N_of_ascii d + 32)%N.

(** Two names that differ in case only. *)
Fixpoint differ_only_in_case (a b : string) : bool :=
  match a, b with
  | EmptyString, EmptyString => true
  | String c a', String d b' => same_letter c d && differ_only_in_case a' b'
  | _, _ => false
  end.

End JS.

(* ================================================================== *)
(** ** Plain objects used as dictionaries                              *)
(* ================================================================== *)

Module Obj.

(** Own properties, oldest first. *)
Definition t (V : Type) : Type := list (string * V).

Definition empty {V} : t V := [].

(** [o[k]], [None] when [k] is not a property. *)
Fixpoint get {V} (k : string) (o : t V) : option V :=
  match o with
  | [] => None
  | (k', v) :: rest => if String.eqb k' k then Some v else get k rest
  end.

(** [k in o].  The names tested this way are not properties of
    [Object.prototype], so the test is one of own properties. *)
Definition has {V} (k : string) (o : t V) : bool :=
  match get k o with
  | Some _ => true
  | None => false
  end.

(** An own property [k] with value [v]: an existing property keeps its
    place and takes the new value, a new one is added last. *)
Fixpoint define {V} (k : string) (v : V) (o : t V) : t V :=
  match o with
  | [] => [(k, v)]
  | (k', v') :: rest =>
      if String.eqb k' k then (k, v) :: rest else (k', v') :: define k v rest
  end.

(** [o[k] = v] on an object made by a literal.  The name [__proto__] is the
    accessor of [Object.prototype]: the assignment creates no property (it
    leaves the object alone for a string, and changes its prototype for an
    array).  Any other name is defined as an own property. *)
Definition set {V} (k : string) (v : V) (o : t V) : t V :=
  if String.eqb k "__proto__" then o else define k v o.

(** [Object.keys(o)]. *)
Definition keys {V} (o : t V) : list string := map fst o.

End Obj.

(* ================================================================== *)
(** ** util/encoding.ts                                                *)
(* ================================================================== *)

Module Encoding.

(** Modelled from the spec: util/encoding.ts ([stringToBase64]) is not among
    the sources at hand.  The spec calls for a "binary-safe text encoding: a
    reversible encoding of arbitrary bytes into a text-safe alphabet"; the
    name says base64.  This is the digit of a 6-bit group in the standard
    alphabet. *)
Definition digit (n : N) : ascii :=
  if (n <? 26)%N then ascii_of_N (65 + n)
  else if (n <? 52)%N then ascii_of_N (97 + (n - 26))
  else if (n <? 62)%N then ascii_of_N (48 + (n - 52))
  else if (n =? 62)%N then "+"%char
  else "/"%char.

(** Modelled from the spec: the binary-safe encoding of a byte array, three
    bytes to four digits, padded with [=]. *)
Fixpoint typedArrayToBase64 (bytes : list Byte.byte) : string :=
  match bytes with
  | [] => ""
  | [a] =>
      let n := (Byte.to_N a * 65536)%N in
      String (digit (N.shiftr n 18))
        (String (digit (N.land (N.shiftr n 12) 63)) "==")
  | [a; b] =>
      let n := (Byte.to_N a * 65536 + Byte.to_N b * 256)%N in
      String (digit (N.shiftr n 18))
        (String (digit (N.land (N.shiftr n 12) 63))
           (String (digit (N.land (N.shiftr n 6) 63)) "="))
  | a :: b :: c :: rest =>
      let n := (Byte.to_N a * 65536 + Byte.to_N b * 256 + Byte.to_N c)%N in
      String (digit (N.shiftr n 18))
        (String (digit (N.land (N.shiftr n 12) 63))
           (String (digit (N.land (N.shiftr n 6) 63))
              (String (digit (N.land n 63)) (typedArrayToBase64 rest))))
  end.

(** Modelled from the spec: the bytes of a text ("byte-length computation",
    "text to binary-safe encoding"), that is its UTF-8 form: one byte for a
    code unit below U+0080, two for the others below U+0100. *)
Fixpoint utf8 (s : string) : list Byte.byte :=
  match s with
  | EmptyString => []
  | String c rest =>
      let n := N_of_ascii c in
      if (n <? 128)%N then byte_of_ascii c :: utf8 rest
      else byte_of_ascii (ascii_of_N (192 + N.shiftr n 6))
           :: byte_of_ascii (ascii_of_N (128 + N.land n 63))
           :: utf8 rest
  end.

(** Modelled from the spec: [stringToBase64], the binary-safe encoding of a
    text. *)
Definition stringToBase64 (str : string) : string :=
  typedArrayToBase64 (utf8 str).

End Encoding.
(* ================================================================== *)
(** ** The protocol types carried by the commands                      *)
(* ================================================================== *)

Module Protocol.

(** Modelled from the spec: the protocol catalogue (the devtools-protocol
    declarations) is not among the sources at hand.  These are the
    error-reason codes of an abort; "Failed" is the generic one. *)
Inductive ErrorReason : Type :=
| Failed | Aborted | TimedOut | AccessDenied | ConnectionClosed
| ConnectionReset | ConnectionRefused | ConnectionAborted
| ConnectionFailed | NameNotResolved | InternetDisconnected
| AddressUnreachable | BlockedByClient | BlockedByResponse.

(** Modelled from the spec: the string literal that each reason code is in
    the source language. *)
Definition ErrorReason_literal (r : ErrorReason) : string :=
  match r with
  | Failed => "Failed"
  | Aborted => "Aborted"
  | TimedOut => "TimedOut"
  | AccessDenied => "AccessDenied"
  | ConnectionClosed => "ConnectionClosed"
  | ConnectionReset => "ConnectionReset"
  | ConnectionRefused => "ConnectionRefused"
  | ConnectionAborted => "ConnectionAborted"
  | ConnectionFailed => "ConnectionFailed"
  | NameNotResolved => "NameNotResolved"
  | InternetDisconnected => "InternetDisconnected"
  | AddressUnreachable => "AddressUnreachable"
  | BlockedByClient => "BlockedByClient"
  | BlockedByResponse => "BlockedByResponse"
  end.

#[global] Instance Truthy_ErrorReason : JS.Truthy ErrorReason :=
  fun r => JS.truthy (ErrorReason_literal r).

(** One element of the wire's ordered list of headers. *)
Record HeaderEntry : Type := { name : string; value : string }.

(** Modelled from the spec: the request description of the notification
    (URL, method, headers, body). *)
Record Request : Type :=
  { request_url : string;
    request_method : string;
    request_headers : Obj.t string;
    request_postData : option string }.

(** Modelled from the spec: the paused-request notification. *)
Record RequestPausedEvent : Type :=
  { event_requestId : string;
    event_request : Request;
    event_frameId : option string;
    event_resourceType : string;
    event_networkId : option string }.

(** Parameters of [Fetch.continueRequest]. *)
Module ContinueRequestRequest.
Record t : Type :=
  { requestId : string;
    url : option string;
    method : option string;
    postData : option string;
    headers : option (list HeaderEntry) }.
End ContinueRequestRequest.

(** Parameters of [Fetch.failRequest]. *)
Module FailRequestRequest.
Record t : Type :=
  { requestId : string;
    errorReason : ErrorReason }.
End FailRequestRequest.

(** Parameters of [Fetch.fulfillRequest]. *)
Module FulfillRequestRequest.
Record t : Type :=
  { requestId : string;
    responseCode : Z;
    responsePhrase : option string;
    responseHeaders : list HeaderEntry;
    body : option string }.
End FulfillRequestRequest.

(** A call [client.send(method, params)]. *)
Inductive Command : Type :=
| Fetch_continueRequest (params : ContinueRequestRequest.t)
| Fetch_failRequest (params : FailRequestRequest.t)
| Fetch_fulfillRequest (params : FulfillRequestRequest.t).

End Protocol.

(* ================================================================== *)
(** ** What a call can throw, and how it completes                     *)
(* ================================================================== *)

(** A thrown value: [new Error(message)], or the error the session
    rejected with (possibly normalized). *)
Inductive Thrown (ProtocolError : Type) : Type :=
| Error (message : string)
| Remote (error : ProtocolError).
Arguments Error {ProtocolError} message.
Arguments Remote {ProtocolError} error.

(** The completion of a call or of a promise handler. *)
Inductive Completion (ProtocolError : Type) : Type :=
| Returns
| Throws (thrown : Thrown ProtocolError).
Arguments Returns {ProtocolError}.
Arguments Throws {ProtocolError} thrown.

(** How the promise of [client.send] settles. *)
Inductive Reply (ProtocolError : Type) : Type :=
| Ack
| Reject (error : ProtocolError).
Arguments Ack {ProtocolError}.
Arguments Reject {ProtocolError} error.

(* ================================================================== *)
(** ** api/HTTPRequest.ts                                              *)
(* ================================================================== *)

Module HTTPRequest.

(** A value of the header map that is flattened for the wire:
    [string | string[]]. *)
Inductive HeaderValue : Type :=
| Single (value : string)
| Multi (values : list string).

(** Modelled from the spec: [headersArray] of api/HTTPRequest.ts is not among
    the sources at hand.  "A pure function from an arbitrary string-keyed map
    (values: string or ordered string list) to an ordered list of
    (name, value) pairs." *)
Definition headersArray (headers : Obj.t HeaderValue)
  : list Protocol.HeaderEntry :=
  flat_map
    (fun '(name, value) =>
       map (fun v => {| Protocol.name := name; Protocol.value := v |})
         match value with
         | Single v => [v]
         | Multi vs => vs
         end)
    headers.

(** Modelled from the spec: [STATUS_TEXTS] of api/HTTPRequest.ts is not among
    the sources at hand.  "A fixed table mapping status codes to their
    standard reason phrase", keyed as an object is: by the decimal text of
    the code. *)
Definition STATUS_TEXTS : Obj.t string :=
  [ ("100", "Continue"); ("101", "Switching Protocols");
    ("102", "Processing"); ("103", "Early Hints");
    ("200", "OK"); ("201", "Created"); ("202", "Accepted");
    ("203", "Non-Authoritative Information"); ("204", "No Content");
    ("205", "Reset Content"); ("206", "Partial Content");
    ("207", "Multi-Status"); ("208", "Already Reported");
    ("226", "IM Used");
    ("300", "Multiple Choices"); ("301", "Moved Permanently");
    ("302", "Found"); ("303", "See Other"); ("304", "Not Modified");
    ("305", "Use Proxy"); ("306", "Switch Proxy");
    ("307", "Temporary Redirect"); ("308", "Permanent Redirect");
    ("400", "Bad Request"); ("401", "Unauthorized");
    ("402", "Payment Required"); ("403", "Forbidden");
    ("404", "Not Found"); ("405", "Method Not Allowed");
    ("406", "Not Acceptable"); ("407", "Proxy Authentication Required");
    ("408", "Request Timeout"); ("409", "Conflict"); ("410", "Gone");
    ("411", "Length Required"); ("412", "Precondition Failed");
    ("413", "Payload Too Large"); ("414", "URI Too Long");
    ("415", "Unsupported Media Type"); ("416", "Range Not Satisfiable");
    ("417", "Expectation Failed"); ("418", "I'm a teapot");
    ("421", "Misdirected Request"); ("422", "Unprocessable Entity");
    ("423", "Locked"); ("424", "Failed Dependency"); ("425", "Too Early");
    ("426", "Upgrade Required"); ("428", "Precondition Required");
    ("429", "Too Many Requests");
    ("431", "Request Header Fields Too Large");
    ("451", "Unavailable For Legal Reasons");
    ("500", "Internal Server Error"); ("501", "Not Implemented");
    ("502", "Bad Gateway"); ("503", "Service Unavailable");
    ("504", "Gateway Timeout"); ("505", "HTTP Version Not Supported");
    ("506", "Variant Also Negotiates"); ("507", "Insufficient Storage");
    ("508", "Loop Detected"); ("510", "Not Extended");
    ("511", "Network Authentication Required") ].

(** Modelled from the spec: the declaration of [ResponseForRequest] is not
    among the sources at hand.  The body of a synthetic response is "optional
    body (text or binary)": a string, or a byte array ([Uint8Array]). *)
Inductive Body : Type :=
| Text (text : string)
| Binary (bytes : list Byte.byte).

(** A text is truthy when it is not empty; a byte array is an object, and
    an object is always truthy. *)
#[global] Instance Truthy_Body : JS.Truthy Body :=
  fun body =>
    match body with
    | Text text => JS.truthy text
    | Binary _ => true
    end.

(** What [getResponse] derives from a body. *)
Record ParsedBody : Type := { contentLength : Z; base64 : string }.

(** Modelled from the spec: [HTTPRequest.getResponse] is not among the
    sources at hand.  "Derive two values: its byte length, and its
    binary-safe encoded form, using whichever encoding variant matches
    whether the caller supplied text or pre-encoded binary content." *)
Definition getResponse (body : Body) : ParsedBody :=
  let byteBody :=
    match body with
    | Text text => Encoding.utf8 text
    | Binary bytes => bytes
    end in
  {| contentLength := Z.of_nat (List.length byteBody);
     base64 := Encoding.typedArrayToBase64 byteBody |}.

(** Modelled from the spec: [handleError] of api/HTTPRequest.ts is not among
    the sources at hand.  On a failed send the operation is to "propagate the
    normalized error to the caller"; "both are surfaced to the caller;
    neither is silently swallowed".  So the handler throws, and what it
    throws is the error after a normalization that the spec leaves open
    ([normalize]). *)
Definition handleError {ProtocolError : Type}
  (normalize : ProtocolError -> ProtocolError) (error : ProtocolError)
  : Completion ProtocolError :=
  Throws (Remote (normalize error)).

(** The overrides of a continue: every field optional. *)
Module ContinueRequestOverrides.
Record t : Type :=
  { url : option string;
    method : option string;
    postData : option string;
    headers : option (Obj.t string) }.
End ContinueRequestOverrides.

(** The description of a synthetic response, every field optional
    ([Partial<ResponseForRequest>]). *)
Module ResponseForRequest.
Record t : Type :=
  { status : option Z;
    headers : option (Obj.t JS.Value);
    contentType : option string;
    body : option Body }.
End ResponseForRequest.

End HTTPRequest.

(* ================================================================== *)
(** ** cdp/FetchRequestPaused.ts                                       *)
(* ================================================================== *)

Module FetchRequestPaused.

Import Protocol HTTPRequest.

(** An instance of the class.  [#client] is the session that every command
    of the instance is sent through; it is the environment of the model and
    appears as the [Reply] handed to [resume].  [#event] never changes,
    [#handled] starts as [false]. *)
Record t : Type := { event : RequestPausedEvent; handled : bool }.

(** [constructor(client, event)]. *)
Definition new (event : RequestPausedEvent) : t :=
  {| event := event; handled := false |}.

(** The read accessors. *)
Definition requestId (this : t) : string := event_requestId (event this).
Definition networkId (this : t) : option string :=
  event_networkId (event this).
Definition request (this : t) : Request := event_request (event this).
Definition frameId (this : t) : option string := event_frameId (event this).
Definition resourceType (this : t) : string :=
  event_resourceType (event this).

(** [this.#handled = b]. *)
Definition set_handled (b : bool) (this : t) : t :=
  {| event := event this; handled := b |}.

(** [headers[header]], [undefined] when there is no such property. *)
Definition property (headers : Obj.t JS.Value) (header : string) : JS.Value :=
  match Obj.get header headers with
  | Some value => value
  | None => JS.Undefined
  end.

(** A [Record<string, string>] seen as a [Record<string, string | string[]>]. *)
Definition widen (headers : Obj.t string) : Obj.t HeaderValue :=
  map (fun '(name, value) => (name, Single value)) headers.

(** Lines 153-161 of [respond]: the body is parsed when it is truthy. *)
Definition parsedBody (response : ResponseForRequest.t) : option ParsedBody :=
  option_map getResponse (JS.if_truthy (ResponseForRequest.body response)).

(** Lines 168-172: [Array.isArray(value) ? value.map(item => String(item))
    : String(value)]. *)
Definition stringified (value : JS.Value) : HeaderValue :=
  match value with
  | JS.Array items => Multi (map JS.ToString items)
  | _ => Single (JS.ToString value)
  end.

(** Lines 166-172, the body of the loop: [responseHeaders[header.toLowerCase()]
    = ...] for the value of [header] in [headers]. *)
Definition assign (headers : Obj.t JS.Value)
  (responseHeaders : Obj.t HeaderValue) (header : string)
  : Obj.t HeaderValue :=
  let value := property headers header in
  Obj.set (JS.toLowerCase header) (stringified value) responseHeaders.

(** Lines 163-174: the header map after the loop over
    [Object.keys(response.headers)]. *)
Definition foldedHeaders (response : ResponseForRequest.t)
  : Obj.t HeaderValue :=
  match ResponseForRequest.headers response with
  | Some headers => fold_left (assign headers) (Obj.keys headers) Obj.empty
  | None => Obj.empty
  end.

(** Among [names], taken in their order, the last one whose lowercase form
    is [k]; used to say which write wins. *)
Definition last_writer (k : string) (names : list string) : option string :=
  find (fun header => String.eqb (JS.toLowerCase header) k) (rev names).

(** Lines 175-177: the header map after the content-type step. *)
Definition typedHeaders (response : ResponseForRequest.t)
  : Obj.t HeaderValue :=
  let responseHeaders := foldedHeaders response in
  match JS.if_truthy (ResponseForRequest.contentType response) with
  | Some contentType =>
      Obj.set "content-type" (Single contentType) responseHeaders
  | None => responseHeaders
  end.

(** Lines 178-180: the header map after the content-length step, the one
    that is flattened into the command. *)
Definition responseHeaders (response : ResponseForRequest.t)
  : Obj.t HeaderValue :=
  let responseHeaders := typedHeaders response in
  match parsedBody response with
  | Some parsed =>
      if JS.truthy (contentLength parsed)
         && negb (Obj.has "content-length" responseHeaders)
      then
        Obj.set "content-length"
          (Single (JS.NumberToString (contentLength parsed)))
          responseHeaders
      else responseHeaders
  | None => responseHeaders
  end.

Section Resolution.

Context {ProtocolError : Type}.

(** The imported [handleError]. *)
Variable handleError : ProtocolError -> Completion ProtocolError.

(** An [async] method up to its [await]: it has thrown, or it has sent
    [command] and waits for the reply, the instance being [this]. *)
Inductive Begun : Type :=
| Throw (thrown : Thrown ProtocolError)
| Await (this : t) (command : Command).

(** [continue(overrides = {})], lines 92-111.  The URL and the method go into
    the command as they are; the body is encoded when it is truthy; the
    headers, an object and so always truthy when present, are flattened. *)
Definition continue (overrides : ContinueRequestOverrides.t) (this : t)
  : Begun :=
  if handled this then Throw (Error "Request has already been handled")
  else
    let this := set_handled true this in
    let postDataBinaryBase64 :=
      option_map Encoding.stringToBase64
        (JS.if_truthy (ContinueRequestOverrides.postData overrides)) in
    Await this
      (Fetch_continueRequest
         {| ContinueRequestRequest.requestId := event_requestId (event this);
            ContinueRequestRequest.url :=
              ContinueRequestOverrides.url overrides;
            ContinueRequestRequest.method :=
              ContinueRequestOverrides.method overrides;
            ContinueRequestRequest.postData := postDataBinaryBase64;
            ContinueRequestRequest.headers :=
              option_map (fun headers => headersArray (widen headers))
                (ContinueRequestOverrides.headers overrides) |}).

(** [abort(errorReason = null)], lines 123-135; [None] is the [null] of the
    default. *)
Definition abort (errorReason : option ErrorReason) (this : t) : Begun :=
  if handled this then Throw (Error "Request has already been handled")
  else
    let this := set_handled true this in
    Await this
      (Fetch_failRequest
         {| FailRequestRequest.requestId := event_requestId (event this);
            FailRequestRequest.errorReason :=
              JS.or_else errorReason Failed |}).

(** [respond(response)], lines 147-190, with the header map of lines
    163-180 as built by [responseHeaders] above. *)
Definition respond (response : ResponseForRequest.t) (this : t) : Begun :=
  if handled this then Throw (Error "Request has already been handled")
  else
    let this := set_handled true this in
    let parsedBody := parsedBody response in
    let responseHeaders := responseHeaders response in
    let status := JS.or_else (ResponseForRequest.status response) 200%Z in
    Await this
      (Fetch_fulfillRequest
         {| FulfillRequestRequest.requestId := event_requestId (event this);
            FulfillRequestRequest.responseCode := status;
            FulfillRequestRequest.responsePhrase :=
              Obj.get (JS.NumberToString status) STATUS_TEXTS;
            FulfillRequestRequest.responseHeaders :=
              headersArray responseHeaders;
            FulfillRequestRequest.body := option_map base64 parsedBody |}).

(** The handler that each of the three methods puts on the promise of the
    send: [.catch(error => { this.#handled = false; return
    handleError(error); })].  The method completes as the handler does. *)
Definition catch (error : ProtocolError) (this : t)
  : t * Completion ProtocolError :=
  (set_handled false this, handleError error).

(** What runs when the awaited promise settles; [this] is the instance as
    it is at that moment. *)
Definition resume (reply : Reply ProtocolError) (this : t)
  : t * Completion ProtocolError :=
  match reply with
  | Ack => (this, Returns)
  | Reject error => catch error this
  end.

(** The three resolutions and their arguments. *)
Inductive Resolution : Type :=
| Continue (overrides : ContinueRequestOverrides.t)
| Abort (errorReason : option ErrorReason)
| Respond (response : ResponseForRequest.t).

Definition begin (resolution : Resolution) (this : t) : Begun :=
  match resolution with
  | Continue overrides => continue overrides this
  | Abort errorReason => abort errorReason this
  | Respond response => respond response this
  end.

(** A call that is awaited: the instance afterwards, the commands that
    went through the session, and how the call completed. *)
Record Run : Type :=
  { final : t;
    sent : list Command;
    outcome : Completion ProtocolError }.

(** [await this.op(args)], the session settling the send with [reply]. *)
Definition invoke (resolution : Resolution) (reply : Reply ProtocolError)
  (this : t) : Run :=
  match begin resolution this with
  | Throw thrown => {| final := this; sent := []; outcome := Throws thrown |}
  | Await this' command =>
      let (this'', completion) := resume reply this' in
      {| final := this''; sent := [command]; outcome := completion |}
  end.

(** *** Calls that are not awaited one by one

    One instance, the calls made on it and the replies of the session, in
    the order in which they happen.  [inflight] counts the sends whose
    promise has not settled, [wire] lists the commands sent so far. *)
Record System : Type :=
  { object : t;
    inflight : nat;
    wire : list Command }.

Definition start (event : RequestPausedEvent) : System :=
  {| object := new event; inflight := 0; wire := [] |}.

Inductive Event : Type :=
| Call (resolution : Resolution)
| Settle (reply : Reply ProtocolError).

(** One event.  The result is the system afterwards and, when a call
    completes at this event, its completion.  A reply without a send in
    flight does not happen ([None]). *)
Definition react (ev : Event) (s : System)
  : option (System * option (Completion ProtocolError)) :=
  match ev with
  | Call resolution =>
      match begin resolution (object s) with
      | Throw thrown => Some (s, Some (Throws thrown))
      | Await this' command =>
          Some ({| object := this';
                   inflight := S (inflight s);
                   wire := wire s ++ [command] |}, None)
      end
  | Settle reply =>
      match inflight s with
      | O => None
      | S n =>
          let (this', completion) := resume reply (object s) in
          Some ({| object := this'; inflight := n; wire := wire s |},
                Some completion)
      end
  end.

(** A sequence of events, with the completions observed on the way. *)
Fixpoint run (evs : list Event) (s : System)
  : option (System * list (option (Completion ProtocolError))) :=
  match evs with
  | [] => Some (s, [])
  | ev :: rest =>
      match react ev s with
      | None => None
      | Some (s', seen) =>
          match run rest s' with
          | None => None
          | Some (s'', more) => Some (s'', seen :: more)
          end
      end
  end.

End Resolution.

Arguments Begun ProtocolError : clear implicits.
Arguments Run ProtocolError : clear implicits.
Arguments Event ProtocolError : clear implicits.

End FetchRequestPaused.

(* ================================================================== *)
(** ** Reading commands and sequences of events                        *)
(* ================================================================== *)

Module Trace.

Import Protocol FetchRequestPaused.

(** The [requestId] parameter of a command. *)
Definition command_requestId (command : Command) : string :=
  match command with
  | Fetch_continueRequest params => ContinueRequestRequest.requestId params
  | Fetch_failRequest params => FailRequestRequest.requestId params
  | Fetch_fulfillRequest params => FulfillRequestRequest.requestId params
  end.

(** The protocol method of a command, the first argument of [send]
    (lines 105, 132 and 184). *)
Definition command_method (command : Command) : string :=
  match command with
  | Fetch_continueRequest _ => "Fetch.continueRequest"
  | Fetch_failRequest _ => "Fetch.failRequest"
  | Fetch_fulfillRequest _ => "Fetch.fulfillRequest"
  end.

Section Counting.

Context {ProtocolError : Type}.

(** The number of acknowledged sends among the events. *)
Fixpoint acks (evs : list (Event ProtocolError)) : nat :=
  match evs with
  | [] => 0
  | Settle Ack :: rest => S (acks rest)
  | _ :: rest => acks rest
  end.

(** The number of rejected sends among the events. *)
Fixpoint rejects (evs : list (Event ProtocolError)) : nat :=
  match evs with
  | [] => 0
  | Settle (Reject _) :: rest => S (rejects rest)
  | _ :: rest => rejects rest
  end.

End Counting.

End Trace.

(* ================================================================== *)
(** ** Sample values                                                   *)
(* ================================================================== *)

Module Sample.

Import Protocol HTTPRequest FetchRequestPaused.

(** A notification for a paused GET of a document. *)
Definition notification : RequestPausedEvent :=
  {| event_requestId := "interception-job-1.0";
     event_request :=
       {| request_url := "https://example.test/";
          request_method := "GET";
          request_headers := [("Accept", "*/*")];
          request_postData := None |};
     event_frameId := Some "F1";
     event_resourceType := "Document";
     event_networkId := None |}.

(** A pending instance, and the same instance once handled. *)
Definition pending : t := new notification.
Definition resolved : t := set_handled true pending.

(** [continue()] without overrides. *)
Definition no_overrides : ContinueRequestOverrides.t :=
  {| ContinueRequestOverrides.url := None;
     ContinueRequestOverrides.method := None;
     ContinueRequestOverrides.postData := None;
     ContinueRequestOverrides.headers := None |}.

(** [continue({postData: body})]. *)
Definition body_override (body : string) : ContinueRequestOverrides.t :=
  {| ContinueRequestOverrides.url := None;
     ContinueRequestOverrides.method := None;
     ContinueRequestOverrides.postData := Some body;
     ContinueRequestOverrides.headers := None |}.

(** [respond({status})]. *)
Definition status_only (status : Z) : ResponseForRequest.t :=
  {| ResponseForRequest.status := Some status;
     ResponseForRequest.headers := None;
     ResponseForRequest.contentType := None;
     ResponseForRequest.body := None |}.

(** [respond({headers: {'X-Test': 'a'}, body: 'hello'})]. *)
Definition hello : ResponseForRequest.t :=
  {| ResponseForRequest.status := None;
     ResponseForRequest.headers := Some [("X-Test", JS.Str "a")];
     ResponseForRequest.contentType := None;
     ResponseForRequest.body := Some (Text "hello") |}.

(** [respond({headers: {'Content-Length': 42}, body: 'hello'})]. *)
Definition hello_with_length : ResponseForRequest.t :=
  {| ResponseForRequest.status := None;
     ResponseForRequest.headers := Some [("Content-Length", JS.Number 42)];
     ResponseForRequest.contentType := None;
     ResponseForRequest.body := Some (Text "hello") |}.

(** [respond({headers: {'X-Test': 'a'}, body: new Uint8Array(0)})]. *)
Definition empty_binary : ResponseForRequest.t :=
  {| ResponseForRequest.status := None;
     ResponseForRequest.headers := Some [("X-Test", JS.Str "a")];
     ResponseForRequest.contentType := None;
     ResponseForRequest.body := Some (Binary []) |}.

(** [respond({headers: {'Content-Type': 'text/html'}, contentType})]. *)
Definition typed (contentType : string) : ResponseForRequest.t :=
  {| ResponseForRequest.status := None;
     ResponseForRequest.headers := Some [("Content-Type", JS.Str "text/html")];
     ResponseForRequest.contentType := Some contentType;
     ResponseForRequest.body := None |}.

(** [respond({headers: {'X-Test': 'a'}, body: ''})]. *)
Definition empty_text : ResponseForRequest.t :=
  {| ResponseForRequest.status := None;
     ResponseForRequest.headers := Some [("X-Test", JS.Str "a")];
     ResponseForRequest.contentType := None;
     ResponseForRequest.body := Some (Text "") |}.

(** Headers whose names differ in case only, with a number and a list among
    the values. *)
Definition mixed_case : ResponseForRequest.t :=
  {| ResponseForRequest.status := None;
     ResponseForRequest.headers :=
       Some [("Set-Cookie", JS.Str "a=1");
             ("X-Count", JS.Number 7);
             ("set-cookie", JS.Array [JS.Str "b=2"; JS.Number 3])];
     ResponseForRequest.contentType := None;
     ResponseForRequest.body := None |}.

(** [continue({headers})]. *)
Definition headers_override (headers : Obj.t string)
  : ContinueRequestOverrides.t :=
  {| ContinueRequestOverrides.url := None;
     ContinueRequestOverrides.method := None;
     ContinueRequestOverrides.postData := None;
     ContinueRequestOverrides.headers := Some headers |}.

(** [respond({headers: {'X-Test': 'a'}, contentType: 'text/plain',
    body: new Uint8Array([104, 105])})]. *)
Definition binary_hi : ResponseForRequest.t :=
  {| ResponseForRequest.status := None;
     ResponseForRequest.headers := Some [("X-Test", JS.Str "a")];
     ResponseForRequest.contentType := Some "text/plain";
     ResponseForRequest.body := Some (Binary [Byte.x68; Byte.x69]) |}.

(** A session whose errors are texts, and a handler that throws them as
    they are. *)
Definition rethrow : string -> Completion string :=
  handleError (fun error => error).

End Sample.

(* ================================================================== *)
(** * Properties                                                        *)
(* ================================================================== *)

Import Protocol HTTPRequest FetchRequestPaused.

(** ** Dictionaries *)

Section ObjFacts.

Context {V : Type}.
Implicit Types (o : Obj.t V) (k : string) (v : V).

Lemma get_define_same k v o : Obj.get k (Obj.define k v o) = Some v.
Proof.
  induction o as [|[k' v'] rest IH]; simpl.
  - now rewrite String.eqb_refl.
  - destruct (String.eqb k' k) eqn:E; simpl.
    + now rewrite String.eqb_refl.
    + now rewrite E.
Qed.

Lemma get_define_other k k' v o :
  k <> k' -> Obj.get k' (Obj.define k v o) = Obj.get k' o.
Proof.
  intros Hne. induction o as [|[k0 v0] rest IH]; simpl.
  - destruct (String.eqb k k') eqn:E; [|reflexivity].
    apply String.eqb_eq in E. contradiction.
  - destruct (String.eqb k0 k) eqn:E; simpl.
    + apply String.eqb_eq in E. subst k0.
      destruct (String.eqb k k') eqn:E'; [|reflexivity].
      apply String.eqb_eq in E'. contradiction.
    + now rewrite IH.
Qed.

Lemma keys_define k k' v o :
  In k' (Obj.keys (Obj.define k v o)) <-> k' = k \/ In k' (Obj.keys o).
Proof.
  unfold Obj.keys. induction o as [|[k0 v0] rest IH]; simpl.
  - intuition congruence.
  - destruct (String.eqb k0 k) eqn:E; simpl.
    + apply String.eqb_eq in E. subst k0. intuition congruence.
    + rewrite IH. intuition congruence.
Qed.

Lemma NoDup_keys_define k v o :
  NoDup (Obj.keys o) -> NoDup (Obj.keys (Obj.define k v o)).
Proof.
  induction o as [|[k0 v0] rest IH]; simpl; intros Hnd.
  - constructor; [intros []|constructor].
  - inversion Hnd as [|? ? Hnotin Hrest]; subst.
    destruct (String.eqb k0 k) eqn:E.
    + apply String.eqb_eq in E. subst k0. simpl. now constructor.
    + simpl. constructor; [|now apply IH].
      intros Hin. apply keys_define in Hin as [->|Hin]; [|contradiction].
      now rewrite String.eqb_refl in E.
Qed.

(** An assignment, the name [__proto__] apart, is a definition. *)
Lemma set_ordinary k v o :
  k <> "__proto__" -> Obj.set k v o = Obj.define k v o.
Proof.
  intros Hk. unfold Obj.set.
  destruct (String.eqb_spec k "__proto__"); [contradiction|reflexivity].
Qed.

Lemma set_proto v o : Obj.set "__proto__" v o = o.
Proof. reflexivity. Qed.

Lemma get_set_same k v o :
  k <> "__proto__" -> Obj.get k (Obj.set k v o) = Some v.
Proof. intros Hk. rewrite set_ordinary by exact Hk. apply get_define_same. Qed.

Lemma get_set_other k k' v o :
  k <> k' -> Obj.get k' (Obj.set k v o) = Obj.get k' o.
Proof.
  intros Hne. unfold Obj.set.
  destruct (String.eqb k "__proto__"); [reflexivity|].
  now apply get_define_other.
Qed.

Lemma keys_set k k' v o :
  In k' (Obj.keys (Obj.set k v o)) <->
  k' = k /\ k <> "__proto__" \/ In k' (Obj.keys o).
Proof.
  unfold Obj.set. destruct (String.eqb_spec k "__proto__") as [->|Hk].
  - split; [now right|]. intros [[_ H]|H]; [now contradiction H|exact H].
  - rewrite keys_define. split.
    + intros [->|H]; [now left|now right].
    + intros [[-> _]|H]; [now left|now right].
Qed.

Lemma NoDup_keys_set k v o :
  NoDup (Obj.keys o) -> NoDup (Obj.keys (Obj.set k v o)).
Proof.
  intros Hnd. unfold Obj.set.
  destruct (String.eqb k "__proto__"); [exact Hnd|].
  now apply NoDup_keys_define.
Qed.

Lemma get_Some_In k v o : Obj.get k o = Some v -> In (k, v) o.
Proof.
  induction o as [|[k0 v0] rest IH]; simpl; [discriminate|].
  destruct (String.eqb k0 k) eqn:E.
  - apply String.eqb_eq in E. intros [= ->]. left. now subst.
  - intros H. right. now apply IH.
Qed.

End ObjFacts.

(** ** Truthiness and encodings *)

Lemma truthy_string_iff (s : string) : JS.truthy s = true <-> s <> "".
Proof.
  destruct s; unfold JS.truthy, JS.Truthy_string; split;
    congruence || discriminate.
Qed.

Lemma truthy_number_iff (n : Z) : JS.truthy n = true <-> n <> 0%Z.
Proof.
  unfold JS.truthy, JS.Truthy_number.
  destruct (Z.eqb_spec n 0); simpl; split; congruence.
Qed.

Lemma truthy_ErrorReason (r : ErrorReason) : JS.truthy r = true.
Proof. now destruct r. Qed.

Lemma typedArrayToBase64_empty_iff (bytes : list Byte.byte) :
  Encoding.typedArrayToBase64 bytes = "" <-> bytes = [].
Proof.
  split; [|now intros ->].
  destruct bytes as [|a [|b [|c rest]]]; [reflexivity| | |];
    cbn [Encoding.typedArrayToBase64]; discriminate.
Qed.

Lemma utf8_empty_iff (s : string) : Encoding.utf8 s = [] <-> s = "".
Proof.
  split; [|now intros ->].
  destruct s as [|c rest]; [reflexivity|].
  cbn [Encoding.utf8].
  destruct (N.ltb (N_of_ascii c) 128); discriminate.
Qed.

Lemma stringToBase64_empty_iff (s : string) :
  Encoding.stringToBase64 s = "" <-> s = "".
Proof.
  unfold Encoding.stringToBase64.
  now rewrite typedArrayToBase64_empty_iff, utf8_empty_iff.
Qed.

(** ** The header map of a response *)

Lemma fold_get (headers : Obj.t JS.Value) (names : list string)
  (acc : Obj.t HeaderValue) (k : string) :
  k <> "__proto__" ->
  Obj.get k (fold_left (assign headers) names acc) =
  match last_writer k names with
  | Some header => Some (stringified (property headers header))
  | None => Obj.get k acc
  end.
Proof.
  intros Hk. unfold last_writer.
  induction names as [|header names IH] using rev_ind; [reflexivity|].
  rewrite fold_left_app, rev_unit. cbn [fold_left find]. unfold assign at 1.
  destruct (String.eqb (JS.toLowerCase header) k) eqn:E.
  - apply String.eqb_eq in E. subst k. now apply get_set_same.
  - rewrite get_set_other; [exact IH|].
    intros Heq. rewrite Heq, String.eqb_refl in E. discriminate.
Qed.

Lemma fold_keys (headers : Obj.t JS.Value) (names : list string)
  (acc : Obj.t HeaderValue) (k : string) :
  In k (Obj.keys (fold_left (assign headers) names acc)) <->
  In k (Obj.keys acc) \/
  k <> "__proto__" /\
  exists header, In header names /\ k = JS.toLowerCase header.
Proof.
  revert acc. induction names as [|header names IH]; intros acc; simpl.
  - split; [now left|intros [H|(_ & ? & [] & _)]; exact H].
  - rewrite IH. unfold assign at 1. rewrite keys_set. split.
    + intros [[[-> Hk]|H]|(Hk & h & Hin & ->)]; eauto 6.
    + intros [H|(Hk & h & [->|Hin] & ->)]; eauto 6.
Qed.

Lemma fold_NoDup (headers : Obj.t JS.Value) (names : list string)
  (acc : Obj.t HeaderValue) :
  NoDup (Obj.keys acc) ->
  NoDup (Obj.keys (fold_left (assign headers) names acc)).
Proof.
  revert acc. induction names as [|header names IH]; intros acc Hnd; simpl.
  - exact Hnd.
  - apply IH. unfold assign. now apply NoDup_keys_set.
Qed.

Lemma last_writer_exists (names : list string) (header : string) :
  In header names ->
  exists last,
    last_writer (JS.toLowerCase header) names = Some last /\
    In last names /\ JS.toLowerCase last = JS.toLowerCase header.
Proof.
  intros Hin. unfold last_writer.
  destruct (find (fun h => String.eqb (JS.toLowerCase h)
                             (JS.toLowerCase header)) (rev names))
    as [last|] eqn:E.
  - exists last. split; [reflexivity|].
    apply find_some in E as [Hl He]. apply in_rev in Hl.
    apply String.eqb_eq in He. now split.
  - apply in_rev in Hin.
    pose proof (find_none _ _ E _ Hin) as Hf. simpl in Hf.
    now rewrite String.eqb_refl in Hf.
Qed.

Lemma headersArray_single (headers : Obj.t HeaderValue) (k v : string) :
  Obj.get k headers = Some (Single v) ->
  In {| name := k; value := v |} (headersArray headers).
Proof.
  intros H. apply get_Some_In in H.
  unfold headersArray. apply in_flat_map.
  exists (k, Single v). split; [exact H|]. now left.
Qed.

(** ** The helpers on known values *)

Example base64_of_foobar :
  map Encoding.stringToBase64 ["f"; "fo"; "foo"; "foob"; "fooba"; "foobar"] =
  ["Zg=="; "Zm8="; "Zm9v"; "Zm9vYg=="; "Zm9vYmE="; "Zm9vYmFy"].
Proof. reflexivity. Qed.

(** U+00E9 has two bytes, 0xC3 0xA9. *)
Example base64_of_e_acute :
  getResponse (Text (String (ascii_of_N 233) "")) =
  {| contentLength := 2; base64 := "w6k=" |}.
Proof. reflexivity. Qed.

Example lowercase_of_header_name :
  JS.toLowerCase "X-Forwarded-For_09" = "x-forwarded-for_09".
Proof. reflexivity. Qed.

Example text_of_values :
  map JS.ToString
    [JS.Undefined; JS.Null; JS.Bool true; JS.Number 0; JS.Number (-12);
     JS.Str "a"; JS.Array [JS.Number 1; JS.Null; JS.Str "b"]] =
  ["undefined"; "null"; "true"; "0"; "-12"; "a"; "1,,b"].
Proof. reflexivity. Qed.

(** Numbers as [String] gives them: exact digits up to 2 ^ 53, the
    shortest digits of the double beyond, the exponent form from 1e21. *)
Example text_of_numbers :
  map JS.NumberToString
    [0; 404; -12; 2 ^ 53; 2 ^ 53 + 1; 2 ^ 64; 10 ^ 21 - 131072; 10 ^ 21;
     2 ^ 70; - (10 ^ 22); 2 ^ 1024]%Z =
  ["0"; "404"; "-12"; "9007199254740992"; "9007199254740992";
   "18446744073709552000"; "999999999999999900000"; "1e+21";
   "1.1805916207174113e+21"; "-1e+22"; "Infinity"].
Proof. vm_compute. reflexivity. Qed.

(** A header named [__PROTO__] folds to [__proto__], and the assignment
    creates no entry. *)
Example proto_is_no_entry :
  foldedHeaders
    {| ResponseForRequest.status := None;
       ResponseForRequest.headers :=
         Some [("__PROTO__", JS.Str "x"); ("X-Test", JS.Str "a")];
       ResponseForRequest.contentType := None;
       ResponseForRequest.body := None |} =
  [("x-test", Single "a")].
Proof. reflexivity. Qed.

Example flattened_headers :
  headersArray [("set-cookie", Multi ["a=1"; "b=2"]); ("x-test", Single "a")] =
  [ {| name := "set-cookie"; value := "a=1" |};
    {| name := "set-cookie"; value := "b=2" |};
    {| name := "x-test"; value := "a" |} ].
Proof. reflexivity. Qed.

(** [respond({headers: {'X-Test': 'a'}, body: 'hello'})] on a pending
    instance, the send being acknowledged. *)
Example respond_hello :
  invoke Sample.rethrow (Respond Sample.hello) Ack Sample.pending =
  {| final := Sample.resolved;
     sent :=
       [Fetch_fulfillRequest
          {| FulfillRequestRequest.requestId := "interception-job-1.0";
             FulfillRequestRequest.responseCode := 200;
             FulfillRequestRequest.responsePhrase := Some "OK";
             FulfillRequestRequest.responseHeaders :=
               [ {| name := "x-test"; value := "a" |};
                 {| name := "content-length"; value := "5" |} ];
             FulfillRequestRequest.body := Some "aGVsbG8=" |}];
     outcome := Returns |}.
Proof. reflexivity. Qed.

(** Two calls made back to back, then the reply: the second call is refused
    at once, one command is on the wire, and a rejected reply reopens the
    instance. *)
Example back_to_back_calls :
  run Sample.rethrow
    [Call (Abort None); Call (Continue Sample.no_overrides);
     Settle (Reject "Target closed")]
    (start Sample.notification) =
  Some ({| object := Sample.pending;
           inflight := 0;
           wire := [Fetch_failRequest
                      {| FailRequestRequest.requestId :=
                           "interception-job-1.0";
                         FailRequestRequest.errorReason := Failed |}] |},
        [None;
         Some (Throws (Error "Request has already been handled"));
         Some (Throws (Remote "Target closed"))]).
Proof. reflexivity. Qed.

(** ** The one-shot state machine *)

Section Machine.

Context {ProtocolError : Type}.
Variable handleError : ProtocolError -> Completion ProtocolError.

Lemma begin_refused (resolution : Resolution) (this : t) :
  handled this = true ->
  begin resolution this =
  Throw (ProtocolError := ProtocolError)
    (Error "Request has already been handled").
Proof.
  intros H. destruct resolution; simpl;
    unfold continue, abort, respond; now rewrite H.
Qed.

Lemma begin_sends (resolution : Resolution) (this : t) :
  handled this = false ->
  exists command,
    begin (ProtocolError := ProtocolError) resolution this =
    Await (set_handled true this) command.
Proof.
  intros H. destruct resolution; simpl;
    unfold continue, abort, respond; rewrite H; eexists; reflexivity.
Qed.

Lemma set_handled_same (this : t) (b : bool) :
  handled this = b -> set_handled b this = this.
Proof. destruct this; simpl; intros ->; reflexivity. Qed.

Lemma set_handled_twice (this : t) (a b : bool) :
  set_handled b (set_handled a this) = set_handled b this.
Proof. reflexivity. Qed.

(** At most one send is in flight, and while it is the flag is up. *)
Lemma react_one_in_flight (ev : Event ProtocolError) (s s' : System)
  (seen : option (Completion ProtocolError)) :
  inflight s = 0 \/ inflight s = 1 /\ handled (object s) = true ->
  react handleError ev s = Some (s', seen) ->
  inflight s' = 0 \/ inflight s' = 1 /\ handled (object s') = true.
Proof.
  intros Inv Hstep. destruct ev as [resolution|reply]; simpl in Hstep.
  - destruct (handled (object s)) eqn:Hh.
    + rewrite (begin_refused _ _ Hh) in Hstep.
      injection Hstep as <- _. rewrite Hh. exact Inv.
    + destruct (begin_sends resolution _ Hh) as [command Hb].
      rewrite Hb in Hstep. injection Hstep as <- _. simpl.
      destruct Inv as [H0|[_ H1]]; [|discriminate].
      right. now rewrite H0.
  - destruct (inflight s) as [|n] eqn:Hn; [discriminate|].
    destruct (resume handleError reply (object s)) as [this' completion].
    injection Hstep as <- _. simpl.
    destruct Inv as [H0|[H1 _]]; [discriminate|].
    left. congruence.
Qed.

Lemma run_one_in_flight (evs : list (Event ProtocolError)) :
  forall (s s' : System) (seen : list (option (Completion ProtocolError))),
    inflight s = 0 \/ inflight s = 1 /\ handled (object s) = true ->
    run handleError evs s = Some (s', seen) ->
    inflight s' = 0 \/ inflight s' = 1 /\ handled (object s') = true.
Proof.
  induction evs as [|ev rest IH]; intros s s' seen Inv Hrun; simpl in Hrun.
  - injection Hrun as <- _. exact Inv.
  - destruct (react handleError ev s) as [[s1 c]|] eqn:Hstep; [|discriminate].
    destruct (run handleError rest s1) as [[s2 more]|] eqn:Hrest;
      [|discriminate].
    injection Hrun as <- _.
    eapply IH; [|exact Hrest].
    eapply react_one_in_flight; eassumption.
Qed.

(** Once the flag is up and nothing is in flight, nothing changes any
    more: every further event is a call, and every call is refused. *)
Lemma run_resolved (evs : list (Event ProtocolError)) :
  forall (s s' : System) (seen : list (option (Completion ProtocolError))),
    inflight s = 0 -> handled (object s) = true ->
    run handleError evs s = Some (s', seen) ->
    s' = s /\
    Forall (fun ev => exists resolution, ev = Call resolution) evs /\
    Forall (fun c =>
              c = Some (Throws (Error "Request has already been handled")))
      seen.
Proof.
  induction evs as [|ev rest IH]; intros s s' seen H0 Hh Hrun;
    simpl in Hrun.
  - injection Hrun as <- <-. repeat split; constructor.
  - destruct ev as [resolution|reply]; simpl in Hrun.
    + rewrite (begin_refused _ _ Hh) in Hrun.
      destruct (run handleError rest s) as [[s2 more]|] eqn:Hrest;
        [|discriminate].
      injection Hrun as <- <-.
      destruct (IH _ _ _ H0 Hh Hrest) as (-> & Hcalls & Hseen).
      repeat split; constructor; eauto.
    + rewrite H0 in Hrun. discriminate.
Qed.

(** Only the handler of a failed send takes the flag down. *)
Lemma react_flag_down (ev : Event ProtocolError) (s s' : System)
  (seen : option (Completion ProtocolError)) :
  react handleError ev s = Some (s', seen) ->
  handled (object s) = true -> handled (object s') = false ->
  exists error, ev = Settle (Reject error).
Proof.
  intros Hstep Hup Hdown. destruct ev as [resolution|[|error]];
    simpl in Hstep.
  - rewrite (begin_refused _ _ Hup) in Hstep.
    injection Hstep as <- _. congruence.
  - destruct (inflight s); [discriminate|].
    injection Hstep as <- _. simpl in Hdown. congruence.
  - now exists error.
Qed.

Lemma invoke_handled (resolution : Resolution) (reply : Reply ProtocolError)
  (this : t) :
  handled this = true ->
  invoke handleError resolution reply this =
  {| final := this; sent := [];
     outcome := Throws (Error "Request has already been handled") |}.
Proof. intros H. unfold invoke. now rewrite (begin_refused _ _ H). Qed.

Lemma invoke_pending (resolution : Resolution) (reply : Reply ProtocolError)
  (this : t) :
  handled this = false ->
  exists command,
    begin (ProtocolError := ProtocolError) resolution this =
      Await (set_handled true this) command /\
    invoke handleError resolution reply this =
    match reply with
    | Ack =>
        {| final := set_handled true this; sent := [command];
           outcome := Returns |}
    | Reject error =>
        {| final := this; sent := [command];
           outcome := handleError error |}
    end.
Proof.
  intros H. destruct (begin_sends resolution _ H) as [command Hb].
  exists command. split; [exact Hb|].
  unfold invoke. rewrite Hb. destruct reply as [|error]; simpl.
  - reflexivity.
  - unfold catch. rewrite set_handled_twice.
    now rewrite (set_handled_same this false H).
Qed.

End Machine.

(** ** The header map of [respond], step by step *)

Lemma folded_get (response : ResponseForRequest.t)
  (headers : Obj.t JS.Value) (k : string) :
  k <> "__proto__" ->
  ResponseForRequest.headers response = Some headers ->
  Obj.get k (foldedHeaders response) =
  option_map (fun header => stringified (property headers header))
    (last_writer k (Obj.keys headers)).
Proof.
  intros Hk H. unfold foldedHeaders. rewrite H, fold_get by exact Hk.
  now destruct (last_writer k (Obj.keys headers)).
Qed.

Lemma NoDup_foldedHeaders (response : ResponseForRequest.t) :
  NoDup (Obj.keys (foldedHeaders response)).
Proof.
  unfold foldedHeaders.
  destruct (ResponseForRequest.headers response) as [headers|].
  - apply fold_NoDup. constructor.
  - constructor.
Qed.

Lemma typed_get_other (response : ResponseForRequest.t) (k : string) :
  k <> "content-type" ->
  Obj.get k (typedHeaders response) = Obj.get k (foldedHeaders response).
Proof.
  intros Hk. unfold typedHeaders.
  destruct (JS.if_truthy (ResponseForRequest.contentType response));
    [|reflexivity].
  apply get_set_other. congruence.
Qed.

Lemma NoDup_typedHeaders (response : ResponseForRequest.t) :
  NoDup (Obj.keys (typedHeaders response)).
Proof.
  unfold typedHeaders.
  destruct (JS.if_truthy (ResponseForRequest.contentType response)).
  - apply NoDup_keys_set, NoDup_foldedHeaders.
  - apply NoDup_foldedHeaders.
Qed.

Lemma response_get_other (response : ResponseForRequest.t) (k : string) :
  k <> "content-length" ->
  Obj.get k (responseHeaders response) = Obj.get k (typedHeaders response).
Proof.
  intros Hk. unfold responseHeaders.
  destruct (parsedBody response) as [parsed|]; [|reflexivity].
  destruct (JS.truthy (contentLength parsed) &&
            negb (Obj.has "content-length" (typedHeaders response)));
    [|reflexivity].
  apply get_set_other. congruence.
Qed.

Lemma NoDup_responseHeaders (response : ResponseForRequest.t) :
  NoDup (Obj.keys (responseHeaders response)).
Proof.
  unfold responseHeaders.
  destruct (parsedBody response) as [parsed|];
    [|apply NoDup_typedHeaders].
  destruct (JS.truthy (contentLength parsed) &&
            negb (Obj.has "content-length" (typedHeaders response))).
  - apply NoDup_keys_set, NoDup_typedHeaders.
  - apply NoDup_typedHeaders.
Qed.

(** An entry that is already there is left alone by the last step. *)
Lemma response_keeps_length (response : ResponseForRequest.t) :
  Obj.has "content-length" (typedHeaders response) = true ->
  responseHeaders response = typedHeaders response.
Proof.
  intros H. unfold responseHeaders.
  destruct (parsedBody response) as [parsed|]; [|reflexivity].
  now rewrite H, andb_false_r.
Qed.

Lemma NoDup_keys_get {V : Type} (o : Obj.t V) (k : string) (v : V) :
  NoDup (Obj.keys o) -> In (k, v) o -> Obj.get k o = Some v.
Proof.
  induction o as [|[k0 v0] rest IH]; simpl; intros Hnd Hin; [easy|].
  inversion Hnd as [|? ? Hnotin Hrest]; subst.
  destruct Hin as [[= -> ->]|Hin].
  - now rewrite String.eqb_refl.
  - destruct (String.eqb k0 k) eqn:E; [|now apply IH].
    apply String.eqb_eq in E. subst k0. exfalso. apply Hnotin.
    unfold Obj.keys. change k with (fst (k, v)). now apply in_map.
Qed.

(** On the wire, the entries of a name are the values of that name in the
    map, when the map has a single value for it. *)
Lemma headersArray_only (headers : Obj.t HeaderValue) (k v w : string) :
  NoDup (Obj.keys headers) ->
  Obj.get k headers = Some (Single v) ->
  In {| name := k; value := w |} (headersArray headers) -> w = v.
Proof.
  intros Hnd Hget Hin. unfold headersArray in Hin.
  apply in_flat_map in Hin as ([k' hv] & Hentry & Hval).
  apply in_map_iff in Hval as (x & [= <- <-] & Hx).
  rewrite (NoDup_keys_get _ _ _ Hnd Hentry) in Hget.
  injection Hget as ->. now destruct Hx.
Qed.

Lemma respond_sends {ProtocolError : Type} (response : ResponseForRequest.t)
  (this : t) :
  handled this = false ->
  respond (ProtocolError := ProtocolError) response this =
  Await (set_handled true this)
    (Fetch_fulfillRequest
       {| FulfillRequestRequest.requestId := requestId this;
          FulfillRequestRequest.responseCode :=
            JS.or_else (ResponseForRequest.status response) 200%Z;
          FulfillRequestRequest.responsePhrase :=
            Obj.get
              (JS.NumberToString
                 (JS.or_else (ResponseForRequest.status response) 200%Z))
              STATUS_TEXTS;
          FulfillRequestRequest.responseHeaders :=
            headersArray (responseHeaders response);
          FulfillRequestRequest.body :=
            option_map base64 (parsedBody response) |}).
Proof. intros H. unfold respond. now rewrite H. Qed.

(* ================================================================== *)
(** * The claims                                                        *)
(* ================================================================== *)

(** C1.  Whichever of continue, abort and respond is invoked while the
    handled flag is true, the call fails with the error "Request has
    already been handled", no command goes through the session, and the
    instance is as it was; the same holds inside any sequence of calls and
    replies, where the count of sends in flight and the commands on the
    wire are untouched as well. *)
Theorem handled_refuses_resolution {ProtocolError : Type}
  (handleError : ProtocolError -> Completion ProtocolError)
  (resolution : Resolution) (reply : Reply ProtocolError) (this : t) :
  handled this = true ->
  invoke handleError resolution reply this =
    {| final := this; sent := [];
       outcome := Throws (Error "Request has already been handled") |} /\
  forall (n : nat) (sofar : list Command),
    react handleError (Call resolution)
      {| object := this; inflight := n; wire := sofar |} =
    Some ({| object := this; inflight := n; wire := sofar |},
          Some (Throws (Error "Request has already been handled"))).
Proof.
  intros H. split.
  - now apply invoke_handled.
  - intros n sofar. simpl. now rewrite (begin_refused _ _ H).
Qed.

Lemma handled_refuses_resolution_witness :
  handled Sample.resolved = true /\
  invoke Sample.rethrow (Respond Sample.hello) Ack Sample.resolved =
    {| final := Sample.resolved; sent := [];
       outcome := Throws (Error "Request has already been handled") |}.
Proof.
  split; [reflexivity|].
  exact (proj1 (handled_refuses_resolution Sample.rethrow
                  (Respond Sample.hello) Ack Sample.resolved eq_refl)).
Defined.

(** C2.  Whichever of continue, abort and respond is invoked on a pending
    instance, if the send is rejected then, once the call has completed,
    the handled flag is false (the instance is the pending one it was),
    exactly one command went out, and the call fails with the normalized
    error: it does not return normally.  Inside a sequence of calls and
    replies, a rejected reply likewise takes the flag down and completes
    the call with that error. *)
Theorem failed_send_restores_pending {ProtocolError : Type}
  (normalize : ProtocolError -> ProtocolError)
  (resolution : Resolution) (error : ProtocolError) (this : t) :
  handled this = false ->
  let r := invoke (handleError normalize) resolution (Reject error) this in
  handled (final r) = false /\
  final r = this /\
  (exists command, sent r = [command]) /\
  outcome r = Throws (Remote (normalize error)) /\
  outcome r <> Returns /\
  forall (s : System) (n : nat),
    inflight s = S n ->
    exists s',
      react (handleError normalize) (Settle (Reject error)) s =
        Some (s', Some (Throws (Remote (normalize error)))) /\
      handled (object s') = false /\
      event (object s') = event (object s) /\
      wire s' = wire s.
Proof.
  intros H r.
  destruct (invoke_pending (handleError normalize) resolution
              (Reject error) this H) as (command & _ & Hr).
  subst r. rewrite Hr. simpl.
  repeat split; try assumption.
  - now exists command.
  - discriminate.
  - intros s n Hn. unfold react. rewrite Hn. simpl.
    eexists. split; [reflexivity|]. now repeat split.
Qed.

Lemma failed_send_restores_pending_witness :
  handled Sample.pending = false /\
  handled (final (invoke Sample.rethrow (Continue Sample.no_overrides)
                    (Reject "Target closed") Sample.pending)) = false /\
  outcome (invoke Sample.rethrow (Continue Sample.no_overrides)
             (Reject "Target closed") Sample.pending) =
    Throws (Remote "Target closed").
Proof.
  split; [reflexivity|].
  pose proof (failed_send_restores_pending (fun e : string => e)
                (Continue Sample.no_overrides) "Target closed"
                Sample.pending eq_refl) as (Hflag & _ & _ & Hout & _).
  split; [exact Hflag|exact Hout].
Defined.

(** C3.  Whichever of continue, abort and respond is invoked on a pending
    instance, after a send that succeeds the handled flag is true.  It stays
    true for good: from an instance as constructed, after any calls and
    replies that end with the success of a send, whatever events follow
    leave the instance, the sends in flight and the wire unchanged, are all
    calls, and each completes with the already-handled error.  And a step
    that takes the flag from true to false is always the reply of a failed
    send. *)
Theorem successful_send_is_final {ProtocolError : Type}
  (handleError : ProtocolError -> Completion ProtocolError) :
  (forall (resolution : Resolution) (this : t),
      handled this = false ->
      handled (final (invoke handleError resolution Ack this)) = true /\
      outcome (invoke handleError resolution Ack this) = Returns) /\
  (forall (notification : RequestPausedEvent)
          (before after : list (Event ProtocolError))
          (s s1 s2 : System)
          (seen seen' : list (option (Completion ProtocolError)))
          (done : option (Completion ProtocolError)),
      run handleError before (start notification) = Some (s, seen) ->
      react handleError (Settle Ack) s = Some (s1, done) ->
      run handleError after s1 = Some (s2, seen') ->
      handled (object s1) = true /\
      s2 = s1 /\
      Forall (fun ev => exists resolution, ev = Call resolution) after /\
      Forall (fun c =>
                c = Some (Throws (Error "Request has already been handled")))
        seen') /\
  (forall (ev : Event ProtocolError) (s s' : System)
          (seen : option (Completion ProtocolError)),
      react handleError ev s = Some (s', seen) ->
      handled (object s) = true -> handled (object s') = false ->
      exists error, ev = Settle (Reject error)).
Proof.
  split; [|split].
  - intros resolution this H.
    destruct (invoke_pending handleError resolution Ack this H)
      as (command & _ & Hr).
    rewrite Hr. now split.
  - intros notification before after s s1 s2 seen seen' done Hbefore Hack
      Hafter.
    assert (Inv : inflight s = 0 \/
                  inflight s = 1 /\ handled (object s) = true).
    { eapply run_one_in_flight; [|exact Hbefore]. now left. }
    simpl in Hack. destruct (inflight s) as [|n] eqn:Hn; [discriminate|].
    destruct Inv as [H0|[H1 Hup]]; [discriminate|].
    injection Hack as <- _.
    assert (Hn0 : n = 0) by congruence. subst n.
    destruct (run_resolved handleError after
                {| object := object s; inflight := 0; wire := wire s |}
                s2 seen' eq_refl Hup Hafter)
      as (Hs & Hcalls & Hseen).
    now repeat split.
  - intros ev s s' seen. apply react_flag_down.
Qed.

Lemma successful_send_is_final_witness :
  handled (final (invoke Sample.rethrow (Abort None) Ack Sample.pending))
    = true /\
  exists s s1 s2 seen',
    run Sample.rethrow [Call (Abort None); Call (Respond Sample.hello)]
      (start Sample.notification) =
      Some (s, [None;
                Some (Throws (Error "Request has already been handled"))]) /\
    react Sample.rethrow (Settle Ack) s = Some (s1, Some Returns) /\
    run Sample.rethrow
      [Call (Continue Sample.no_overrides); Call (Abort (Some Aborted))]
      s1 = Some (s2, seen') /\
    handled (object s1) = true /\
    s2 = s1 /\
    Forall (fun c =>
              c = Some (Throws (Error "Request has already been handled")))
      seen'.
Proof.
  destruct (successful_send_is_final Sample.rethrow) as (Hok & Hperm & _).
  split.
  - exact (proj1 (Hok (Abort None) Sample.pending eq_refl)).
  - do 4 eexists.
    split; [reflexivity|]. split; [reflexivity|]. split; [reflexivity|].
    destruct (Hperm Sample.notification
                [Call (Abort None); Call (Respond Sample.hello)]
                [Call (Continue Sample.no_overrides);
                 Call (Abort (Some Aborted))]
                _ _ _ _ _ _ eq_refl eq_refl eq_refl)
      as (Hup & Hsame & _ & Hseen).
    split; [exact Hup|]. split; [exact Hsame|exact Hseen].
Defined.

(** C4, as stated, fails.  For [respond({headers: {'X-Test': 'a'}, body: new
    Uint8Array(0)})] a body is derived (byte length 0, empty encoding, sent
    as the body of the command) and the header map has no content-length
    entry, yet none is injected: the guard of line 178 tests the byte
    length, and 0 is falsy. *)
Lemma empty_binary_body_gets_no_content_length :
  parsedBody Sample.empty_binary =
    Some {| contentLength := 0; base64 := "" |} /\
  Obj.has "content-length" (typedHeaders Sample.empty_binary) = false /\
  Obj.get "content-length" (responseHeaders Sample.empty_binary) = None /\
  respond (ProtocolError := string) Sample.empty_binary Sample.pending =
    Await Sample.resolved
      (Fetch_fulfillRequest
         {| FulfillRequestRequest.requestId := "interception-job-1.0";
            FulfillRequestRequest.responseCode := 200;
            FulfillRequestRequest.responsePhrase := Some "OK";
            FulfillRequestRequest.responseHeaders :=
              [{| name := "x-test"; value := "a" |}];
            FulfillRequestRequest.body := Some "" |}).
Proof. repeat split. Qed.

(** C4, amended.  In respond, whenever a body was derived with a byte length
    other than zero and the header map built so far has no content-length
    entry, a content-length entry equal to the derived byte length is
    injected, and it is on the wire; and whenever the caller supplied a
    header whose lowercase name is content-length, the entry of the map is
    the caller's (stringified) value, the one written last, whatever the
    body. *)
Theorem content_length_is_a_fallback (response : ResponseForRequest.t) :
  (forall parsed : ParsedBody,
      parsedBody response = Some parsed ->
      contentLength parsed <> 0%Z ->
      Obj.has "content-length" (typedHeaders response) = false ->
      Obj.get "content-length" (responseHeaders response) =
        Some (Single (JS.NumberToString (contentLength parsed))) /\
      In {| name := "content-length";
            value := JS.NumberToString (contentLength parsed) |}
        (headersArray (responseHeaders response))) /\
  (forall (headers : Obj.t JS.Value) (header : string),
      ResponseForRequest.headers response = Some headers ->
      In header (Obj.keys headers) ->
      JS.toLowerCase header = "content-length" ->
      exists last,
        last_writer "content-length" (Obj.keys headers) = Some last /\
        Obj.get "content-length" (responseHeaders response) =
          Some (stringified (property headers last)) /\
        responseHeaders response = typedHeaders response).
Proof.
  split.
  - intros parsed Hparsed Hlen Hnone.
    assert (Hget : Obj.get "content-length" (responseHeaders response) =
                   Some (Single (JS.NumberToString (contentLength parsed)))).
    { unfold responseHeaders. rewrite Hparsed, Hnone.
      apply truthy_number_iff in Hlen. rewrite Hlen. cbn [andb negb].
      apply get_set_same. discriminate. }
    split; [exact Hget|]. now apply headersArray_single.
  - intros headers header Hheaders Hin Hlower.
    destruct (last_writer_exists _ _ Hin) as (last & Hlast & _ & _).
    rewrite Hlower in Hlast. exists last. split; [exact Hlast|].
    assert (Hfolded : Obj.get "content-length" (typedHeaders response) =
                      Some (stringified (property headers last))).
    { rewrite typed_get_other by discriminate.
      rewrite (folded_get _ _ "content-length" ltac:(discriminate) Hheaders),
        Hlast.
      reflexivity. }
    assert (Hkeep : responseHeaders response = typedHeaders response).
    { apply response_keeps_length. unfold Obj.has. now rewrite Hfolded. }
    rewrite Hkeep. now split.
Qed.

Lemma content_length_is_a_fallback_witness :
  parsedBody Sample.hello <> None /\
  Obj.get "content-length" (responseHeaders Sample.hello) =
    Some (Single "5") /\
  Obj.get "content-length" (responseHeaders Sample.hello_with_length) =
    Some (Single "42").
Proof.
  destruct (content_length_is_a_fallback Sample.hello) as [Hinject _].
  destruct (content_length_is_a_fallback Sample.hello_with_length)
    as [_ Hkeep].
  split; [discriminate|]. split.
  - exact (proj1 (Hinject (getResponse (Text "hello")) eq_refl
                    ltac:(discriminate) eq_refl)).
  - destruct (Hkeep [("Content-Length", JS.Number 42)] "Content-Length"
                eq_refl (or_introl eq_refl) eq_refl)
      as (last & Hlast & Hget & _).
    injection Hlast as <-. exact Hget.
Defined.

(** *** Folding the case of a name *)

Lemma lower_unit_capital (c : ascii) :
  JS.lower_unit c =
  if JS.is_capital c then ascii_of_N (N_of_ascii c + 32) else c.
Proof. reflexivity. Qed.

Lemma lower_unit_small (c : ascii) : JS.is_capital (JS.lower_unit c) = false.
Proof. destruct c as [[] [] [] [] [] [] [] []]; reflexivity. Qed.

Lemma same_letter_lower_unit (c : ascii) :
  JS.same_letter (JS.lower_unit c) c = true.
Proof. destruct c as [[] [] [] [] [] [] [] []]; reflexivity. Qed.

Lemma capital_then_small (c : ascii) :
  JS.is_capital c = true ->
  JS.lower_unit (ascii_of_N (N_of_ascii c + 32)) =
  ascii_of_N (N_of_ascii c + 32).
Proof.
  destruct c as [[] [] [] [] [] [] [] []]; intros H;
    solve [discriminate H | reflexivity].
Qed.

Lemma same_letter_lower (c d : ascii) :
  JS.same_letter c d = true -> JS.lower_unit c = JS.lower_unit d.
Proof.
  unfold JS.same_letter. intros H.
  apply orb_true_iff in H as [H|H]; [apply orb_true_iff in H as [H|H]|].
  - apply Ascii.eqb_eq in H. now subst.
  - apply andb_true_iff in H as [Hc Hd]. apply N.eqb_eq in Hd.
    assert (Hdc : d = ascii_of_N (N_of_ascii c + 32))
      by (now rewrite <- Hd, ascii_N_embedding).
    rewrite Hdc, (capital_then_small c Hc), lower_unit_capital.
    now rewrite Hc.
  - apply andb_true_iff in H as [Hd Hc]. apply N.eqb_eq in Hc.
    assert (Hcd : c = ascii_of_N (N_of_ascii d + 32))
      by (now rewrite <- Hc, ascii_N_embedding).
    rewrite Hcd, (capital_then_small d Hd), lower_unit_capital.
    now rewrite Hd.
Qed.

(** Names that differ in case only have the same lowercase form. *)
Lemma differ_only_in_case_lower (a b : string) :
  JS.differ_only_in_case a b = true -> JS.toLowerCase a = JS.toLowerCase b.
Proof.
  revert b. induction a as [|c a IH]; intros [|d b]; simpl;
    try discriminate; [reflexivity|].
  intros H. apply andb_true_iff in H as [Hcd Hab].
  now rewrite (same_letter_lower c d Hcd), (IH b Hab).
Qed.

(** A name and its lowercase form differ in case only. *)
Lemma lower_differs_only_in_case (a : string) :
  JS.differ_only_in_case (JS.toLowerCase a) a = true.
Proof.
  induction a as [|c a IH]; simpl; [reflexivity|].
  now rewrite same_letter_lower_unit, IH.
Qed.

(** The lowercase form has no capital letter, and a name without one is
    its own lowercase form. *)
Lemma toLowerCase_small (a : string) :
  JS.has_capital (JS.toLowerCase a) = false.
Proof.
  induction a as [|c a IH]; simpl; [reflexivity|].
  now rewrite lower_unit_small, IH.
Qed.

Lemma small_toLowerCase (a : string) :
  JS.has_capital a = false -> JS.toLowerCase a = a.
Proof.
  induction a as [|c a IH]; simpl; [reflexivity|].
  intros H. apply orb_false_iff in H as [Hc Ha].
  now rewrite lower_unit_capital, Hc, (IH Ha).
Qed.

Lemma filter_at_most_one {A : Type} (p : string * A -> bool)
  (l : list (string * A)) :
  NoDup (Obj.keys l) ->
  (forall x y, In x l -> In y l -> p x = true -> p y = true ->
               fst x = fst y) ->
  List.length (filter p l) <= 1.
Proof.
  induction l as [|x rest IH]; simpl; intros Hnd Hsame; [auto|].
  inversion Hnd as [|? ? Hnotin Hrest]; subst.
  destruct (p x) eqn:Hx.
  - assert (Hnone : filter p rest = []).
    { destruct (filter p rest) as [|y more] eqn:Hf; [reflexivity|].
      assert (Hy : In y (filter p rest)) by (rewrite Hf; now left).
      apply filter_In in Hy as [Hin Hpy].
      exfalso. apply Hnotin.
      rewrite (Hsame x y (or_introl eq_refl) (or_intror Hin) Hx Hpy).
      unfold Obj.keys. now apply in_map. }
    rewrite Hnone. simpl. auto.
  - apply Nat.le_trans with (m := 1); [|auto].
    apply IH; [exact Hrest|].
    intros y z Hy Hz. apply Hsame; now right.
Qed.

Lemma filter_at_least_one {A : Type} (p : A -> bool) (l : list A) (x : A) :
  In x l -> p x = true -> 1 <= List.length (filter p l).
Proof.
  intros Hin Hp.
  assert (Hx : In x (filter p l)) by (apply filter_In; now split).
  destruct (filter p l); [destruct Hx|simpl; lia].
Qed.

Lemma folded_small (response : ResponseForRequest.t) (k : string) :
  In k (Obj.keys (foldedHeaders response)) -> JS.has_capital k = false.
Proof.
  unfold foldedHeaders.
  destruct (ResponseForRequest.headers response) as [headers|];
    [|intros []].
  intros Hin. apply fold_keys in Hin as [[]|(_ & header & _ & ->)].
  apply toLowerCase_small.
Qed.

(** C5.  In respond, the loop over the caller's headers builds a map whose
    names are the lowercase forms of the caller's names ([__proto__] apart,
    which an assignment does not make a property), none with a capital
    letter in it, each name once.  Names that differ in case only have one
    lowercase form, so that for any name the map has at most one entry that
    differs from it in case only, and exactly one for a caller's name.  The
    entry is the stringified value of the caller's header that, in the order
    of the caller's object, is the last one with that lowercase form: a
    string stays as it is, any other value that is not a list becomes its
    text, and a list becomes the list, in order, of the texts of its
    elements. *)
Theorem headers_are_case_folded (response : ResponseForRequest.t)
  (headers : Obj.t JS.Value) :
  ResponseForRequest.headers response = Some headers ->
  NoDup (Obj.keys (foldedHeaders response)) /\
  (forall k : string,
      In k (Obj.keys (foldedHeaders response)) <->
      k <> "__proto__" /\
      exists header, In header (Obj.keys headers) /\
                     k = JS.toLowerCase header) /\
  (forall k : string,
      In k (Obj.keys (foldedHeaders response)) ->
      JS.has_capital k = false) /\
  (forall a b : string,
      JS.differ_only_in_case a b = true ->
      JS.toLowerCase a = JS.toLowerCase b) /\
  (forall name : string,
      List.length
        (filter (fun entry => JS.differ_only_in_case (fst entry) name)
           (foldedHeaders response)) <= 1) /\
  (forall header : string,
      In header (Obj.keys headers) ->
      JS.toLowerCase header <> "__proto__" ->
      exists last,
        last_writer (JS.toLowerCase header) (Obj.keys headers) = Some last /\
        In last (Obj.keys headers) /\
        JS.toLowerCase last = JS.toLowerCase header /\
        Obj.get (JS.toLowerCase header) (foldedHeaders response) =
          Some (stringified (property headers last)) /\
        List.length
          (filter (fun entry => JS.differ_only_in_case (fst entry) header)
             (foldedHeaders response)) = 1 /\
        (forall s : string,
            property headers last = JS.Str s ->
            Obj.get (JS.toLowerCase header) (foldedHeaders response) =
              Some (Single s)) /\
        (forall items : list JS.Value,
            property headers last = JS.Array items ->
            Obj.get (JS.toLowerCase header) (foldedHeaders response) =
              Some (Multi (map JS.ToString items))) /\
        ((forall items, property headers last <> JS.Array items) ->
         Obj.get (JS.toLowerCase header) (foldedHeaders response) =
           Some (Single (JS.ToString (property headers last))))).
Proof.
  intros Hheaders.
  assert (Hnd : NoDup (Obj.keys (foldedHeaders response)))
    by apply NoDup_foldedHeaders.
  assert (Hone : forall name : string,
             List.length
               (filter (fun entry => JS.differ_only_in_case (fst entry) name)
                  (foldedHeaders response)) <= 1).
  { intros name. apply filter_at_most_one; [exact Hnd|].
    intros [k1 v1] [k2 v2] H1 H2 Hp1 Hp2. simpl in *.
    assert (Hk1 : In k1 (Obj.keys (foldedHeaders response)))
      by (unfold Obj.keys; change k1 with (fst (k1, v1)); now apply in_map).
    assert (Hk2 : In k2 (Obj.keys (foldedHeaders response)))
      by (unfold Obj.keys; change k2 with (fst (k2, v2)); now apply in_map).
    rewrite <- (small_toLowerCase k1 (folded_small _ _ Hk1)).
    rewrite <- (small_toLowerCase k2 (folded_small _ _ Hk2)).
    rewrite (differ_only_in_case_lower _ _ Hp1).
    now rewrite (differ_only_in_case_lower _ _ Hp2). }
  split; [exact Hnd|]. split; [|split; [|split; [|split]]].
  - intros k. unfold foldedHeaders. rewrite Hheaders, fold_keys.
    split; [intros [[]|H]; exact H|now right].
  - apply folded_small.
  - apply differ_only_in_case_lower.
  - exact Hone.
  - intros header Hin Hproto.
    destruct (last_writer_exists _ _ Hin) as (last & Hlast & Hmember & Hsame).
    assert (Hget : Obj.get (JS.toLowerCase header) (foldedHeaders response) =
                   Some (stringified (property headers last))).
    { rewrite (folded_get _ _ _ Hproto Hheaders), Hlast. reflexivity. }
    exists last. split; [exact Hlast|]. split; [exact Hmember|].
    split; [exact Hsame|]. split; [exact Hget|]. split; [|split; [|split]].
    + apply Nat.le_antisymm; [apply Hone|].
      apply get_Some_In in Hget.
      apply (filter_at_least_one _ _ _ Hget). simpl.
      apply lower_differs_only_in_case.
    + intros s Hs. now rewrite Hget, Hs.
    + intros items Hitems. now rewrite Hget, Hitems.
    + intros Hnot. rewrite Hget.
      destruct (property headers last) as [| | | | |items]; try reflexivity.
      now contradiction (Hnot items).
Qed.

Lemma headers_are_case_folded_witness :
  ResponseForRequest.headers Sample.mixed_case <> None /\
  NoDup (Obj.keys (foldedHeaders Sample.mixed_case)) /\
  Obj.get "set-cookie" (foldedHeaders Sample.mixed_case) =
    Some (Multi ["b=2"; "3"]) /\
  List.length
    (filter (fun entry => JS.differ_only_in_case (fst entry) "Set-Cookie")
       (foldedHeaders Sample.mixed_case)) = 1.
Proof.
  destruct (headers_are_case_folded Sample.mixed_case _ eq_refl)
    as (Hnd & _ & _ & _ & _ & Hlast).
  split; [discriminate|]. split; [exact Hnd|].
  destruct (Hlast "Set-Cookie" (or_introl eq_refl) ltac:(discriminate))
    as (last & Hwho & _ & _ & Hget & Hone & _).
  injection Hwho as <-. split; [exact Hget|exact Hone].
Defined.

(** C6, as stated, fails.  [continue({postData: ''})] supplies a body
    override, and the command carries no body field at all: line 100 tests
    the override for truthiness, and the empty text is falsy. *)
Lemma empty_body_override_is_dropped :
  ContinueRequestOverrides.postData (Sample.body_override "") = Some "" /\
  continue (ProtocolError := string) (Sample.body_override "")
    Sample.pending =
    Await Sample.resolved
      (Fetch_continueRequest
         {| ContinueRequestRequest.requestId := "interception-job-1.0";
            ContinueRequestRequest.url := None;
            ContinueRequestRequest.method := None;
            ContinueRequestRequest.postData := None;
            ContinueRequestRequest.headers := None |}).
Proof. split; reflexivity. Qed.

(** C6, amended.  In continue on a pending instance, a call whose overrides
    have neither a body nor headers produces a command whose postData and
    headers fields are absent (and which passes the URL and the method on as
    they are); and for every call that supplies a body override other than
    the empty text, the command carries a postData field that is the base64
    encoding of the override and is not empty. *)
Theorem continue_carries_overrides {ProtocolError : Type}
  (overrides : ContinueRequestOverrides.t) (this : t) :
  handled this = false ->
  exists params,
    continue (ProtocolError := ProtocolError) overrides this =
      Await (set_handled true this) (Fetch_continueRequest params) /\
    ContinueRequestRequest.requestId params = requestId this /\
    ContinueRequestRequest.url params =
      ContinueRequestOverrides.url overrides /\
    ContinueRequestRequest.method params =
      ContinueRequestOverrides.method overrides /\
    (ContinueRequestOverrides.postData overrides = None ->
     ContinueRequestRequest.postData params = None) /\
    (ContinueRequestOverrides.headers overrides = None ->
     ContinueRequestRequest.headers params = None) /\
    (forall body : string,
        ContinueRequestOverrides.postData overrides = Some body ->
        body <> "" ->
        ContinueRequestRequest.postData params =
          Some (Encoding.stringToBase64 body) /\
        Encoding.stringToBase64 body <> "").
Proof.
  intros H. unfold continue. rewrite H. eexists. split; [reflexivity|].
  cbn [ContinueRequestRequest.requestId ContinueRequestRequest.url
       ContinueRequestRequest.method ContinueRequestRequest.postData
       ContinueRequestRequest.headers].
  split; [reflexivity|]. split; [reflexivity|]. split; [reflexivity|].
  split; [now intros ->|]. split; [now intros ->|].
  intros body Hbody Hne. split.
  - rewrite Hbody. unfold JS.if_truthy.
    apply truthy_string_iff in Hne. now rewrite Hne.
  - intros Hempty. apply Hne. now apply stringToBase64_empty_iff.
Qed.

Lemma continue_carries_overrides_witness :
  handled Sample.pending = false /\
  exists params,
    continue (ProtocolError := string) (Sample.body_override "{}")
      Sample.pending =
      Await Sample.resolved (Fetch_continueRequest params) /\
    ContinueRequestRequest.postData params = Some "e30=" /\
    ContinueRequestRequest.headers params = None.
Proof.
  split; [reflexivity|].
  destruct (continue_carries_overrides (ProtocolError := string)
              (Sample.body_override "{}") Sample.pending eq_refl)
    as (params & Hsend & _ & _ & _ & _ & Hnoheaders & Hbody).
  exists params. split; [exact Hsend|]. split.
  - exact (proj1 (Hbody "{}" eq_refl ltac:(discriminate))).
  - exact (Hnoheaders eq_refl).
Defined.

(** C7, as stated, fails.  [respond({status: 0})] gives a status code that
    the table does not have, and the phrase field is not absent: line 182
    replaces a falsy status by 200, so the command carries status 200 and the
    phrase "OK". *)
Lemma zero_status_gets_the_default_phrase :
  ResponseForRequest.status (Sample.status_only 0) = Some 0%Z /\
  Obj.get (JS.NumberToString 0) STATUS_TEXTS = None /\
  respond (ProtocolError := string) (Sample.status_only 0) Sample.pending =
    Await Sample.resolved
      (Fetch_fulfillRequest
         {| FulfillRequestRequest.requestId := "interception-job-1.0";
            FulfillRequestRequest.responseCode := 200;
            FulfillRequestRequest.responsePhrase := Some "OK";
            FulfillRequestRequest.responseHeaders := [];
            FulfillRequestRequest.body := None |}).
Proof. repeat split. Qed.

(** C7, amended.  In respond on a pending instance, the phrase of the
    command is what the table of status texts has for the status of the
    command: with status 404 it is "Not Found"; and for any status code other
    than zero that the table does not have, 999 being one, the command
    carries that status, the phrase field is absent, and the call still
    completes normally, handled, when the send succeeds. *)
Theorem status_phrase_comes_from_table {ProtocolError : Type}
  (handleError : ProtocolError -> Completion ProtocolError)
  (response : ResponseForRequest.t) (this : t) :
  handled this = false ->
  exists params,
    respond (ProtocolError := ProtocolError) response this =
      Await (set_handled true this) (Fetch_fulfillRequest params) /\
    FulfillRequestRequest.responsePhrase params =
      Obj.get (JS.NumberToString (FulfillRequestRequest.responseCode params))
        STATUS_TEXTS /\
    (ResponseForRequest.status response = Some 404%Z ->
     FulfillRequestRequest.responseCode params = 404%Z /\
     FulfillRequestRequest.responsePhrase params = Some "Not Found") /\
    (forall code : Z,
        ResponseForRequest.status response = Some code ->
        code <> 0%Z ->
        Obj.get (JS.NumberToString code) STATUS_TEXTS = None ->
        FulfillRequestRequest.responseCode params = code /\
        FulfillRequestRequest.responsePhrase params = None /\
        invoke handleError (Respond response) Ack this =
          {| final := set_handled true this;
             sent := [Fetch_fulfillRequest params];
             outcome := Returns |}) /\
    Obj.get (JS.NumberToString 999) STATUS_TEXTS = None.
Proof.
  intros H. eexists. split; [apply (respond_sends response this H)|].
  cbn [FulfillRequestRequest.responseCode
       FulfillRequestRequest.responsePhrase].
  split; [reflexivity|]. split; [now intros ->|]. split; [|reflexivity].
  intros code Hcode Hnz Habsent. rewrite Hcode. unfold JS.or_else.
  apply truthy_number_iff in Hnz. rewrite Hnz.
  split; [reflexivity|]. split; [exact Habsent|].
  unfold invoke. cbn [begin].
  rewrite (respond_sends response this H), Hcode. unfold JS.or_else.
  now rewrite Hnz.
Qed.

Lemma status_phrase_comes_from_table_witness :
  handled Sample.pending = false /\
  (exists params,
      respond (ProtocolError := string) (Sample.status_only 404)
        Sample.pending =
        Await Sample.resolved (Fetch_fulfillRequest params) /\
      FulfillRequestRequest.responsePhrase params = Some "Not Found") /\
  (exists params,
      invoke Sample.rethrow (Respond (Sample.status_only 999)) Ack
        Sample.pending =
        {| final := Sample.resolved;
           sent := [Fetch_fulfillRequest params];
           outcome := Returns |} /\
      FulfillRequestRequest.responseCode params = 999%Z /\
      FulfillRequestRequest.responsePhrase params = None).
Proof.
  split; [reflexivity|]. split.
  - destruct (status_phrase_comes_from_table Sample.rethrow
                (Sample.status_only 404) Sample.pending eq_refl)
      as (params & Hsend & _ & H404 & _).
    exists params. split; [exact Hsend|exact (proj2 (H404 eq_refl))].
  - destruct (status_phrase_comes_from_table Sample.rethrow
                (Sample.status_only 999) Sample.pending eq_refl)
      as (params & _ & _ & _ & Hunknown & _).
    exists params.
    destruct (Hunknown 999%Z eq_refl ltac:(discriminate) eq_refl)
      as (Hcode & Hnone & Hrun).
    split; [exact Hrun|]. split; [exact Hcode|exact Hnone].
Defined.

(** C8, as stated, fails.  [respond({headers: {'Content-Type': 'text/html'},
    contentType: ''})] supplies a separate content-type, and the entry of
    the map is the caller's header, not the supplied value: line 175 tests
    the content-type for truthiness, and the empty text is falsy. *)
Lemma empty_content_type_does_not_win :
  ResponseForRequest.contentType (Sample.typed "") = Some "" /\
  Obj.get "content-type" (responseHeaders (Sample.typed "")) =
    Some (Single "text/html") /\
  Obj.get "content-type" (responseHeaders (Sample.typed "")) <>
    Some (Single "").
Proof. repeat split. discriminate. Qed.

(** C8, amended.  In respond, whenever a separate content-type other than
    the empty text is supplied, the content-type entry of the built header
    map equals that value, whatever content-type entry came from the
    caller's header map, and on the wire it is the only value under that
    name. *)
Theorem content_type_overrides_header (response : ResponseForRequest.t)
  (contentType : string) :
  ResponseForRequest.contentType response = Some contentType ->
  contentType <> "" ->
  Obj.get "content-type" (responseHeaders response) =
    Some (Single contentType) /\
  In {| name := "content-type"; value := contentType |}
    (headersArray (responseHeaders response)) /\
  forall other : string,
    In {| name := "content-type"; value := other |}
      (headersArray (responseHeaders response)) ->
    other = contentType.
Proof.
  intros Hsupplied Hne.
  assert (Hget : Obj.get "content-type" (responseHeaders response) =
                 Some (Single contentType)).
  { rewrite response_get_other by discriminate.
    unfold typedHeaders. rewrite Hsupplied. unfold JS.if_truthy.
    apply truthy_string_iff in Hne. rewrite Hne. apply get_set_same.
    discriminate. }
  split; [exact Hget|]. split.
  - now apply headersArray_single.
  - intros other Hin.
    exact (headersArray_only _ _ _ _ (NoDup_responseHeaders response)
             Hget Hin).
Qed.

Lemma content_type_overrides_header_witness :
  ResponseForRequest.contentType (Sample.typed "application/json") =
    Some "application/json" /\
  Obj.get "content-type"
    (foldedHeaders (Sample.typed "application/json")) =
    Some (Single "text/html") /\
  Obj.get "content-type"
    (responseHeaders (Sample.typed "application/json")) =
    Some (Single "application/json").
Proof.
  split; [reflexivity|]. split; [reflexivity|].
  exact (proj1 (content_type_overrides_header
                  (Sample.typed "application/json") "application/json"
                  eq_refl ltac:(discriminate))).
Defined.

(** C9.  In abort on a pending instance, when the caller gives no reason
    (the default, null) the command's errorReason is the generic reason
    Failed, whose code on the wire is "Failed"; when a reason is given, the
    command carries that reason. *)
Theorem abort_defaults_to_failed {ProtocolError : Type} (this : t) :
  handled this = false ->
  abort (ProtocolError := ProtocolError) None this =
    Await (set_handled true this)
      (Fetch_failRequest
         {| FailRequestRequest.requestId := requestId this;
            FailRequestRequest.errorReason := Failed |}) /\
  ErrorReason_literal Failed = "Failed" /\
  forall reason : ErrorReason,
    abort (ProtocolError := ProtocolError) (Some reason) this =
      Await (set_handled true this)
        (Fetch_failRequest
           {| FailRequestRequest.requestId := requestId this;
              FailRequestRequest.errorReason := reason |}).
Proof.
  intros H. unfold abort. rewrite H. split; [reflexivity|].
  split; [reflexivity|].
  intros reason. unfold JS.or_else. now rewrite truthy_ErrorReason.
Qed.

Lemma abort_defaults_to_failed_witness :
  handled Sample.pending = false /\
  sent (invoke Sample.rethrow (Abort None) Ack Sample.pending) =
    [Fetch_failRequest
       {| FailRequestRequest.requestId := "interception-job-1.0";
          FailRequestRequest.errorReason := Failed |}] /\
  abort (ProtocolError := string) (Some TimedOut) Sample.pending =
    Await Sample.resolved
      (Fetch_failRequest
         {| FailRequestRequest.requestId := "interception-job-1.0";
            FailRequestRequest.errorReason := TimedOut |}).
Proof.
  destruct (abort_defaults_to_failed (ProtocolError := string)
              Sample.pending eq_refl) as (Hdefault & _ & Hgiven).
  split; [reflexivity|]. split.
  - unfold invoke. cbn [begin]. now rewrite Hdefault.
  - exact (Hgiven TimedOut).
Defined.

(** C10.  In respond, a body that is the empty text is treated exactly as
    no body: nothing is derived from it, no content-length entry is injected
    (the header map is the one of the content-type step), the body field of
    the command is absent, and the call does, on every instance and for
    every reply, what it does for the same response without a body. *)
Theorem empty_text_body_is_no_body {ProtocolError : Type}
  (handleError : ProtocolError -> Completion ProtocolError)
  (response : ResponseForRequest.t) :
  ResponseForRequest.body response = Some (Text "") ->
  let bodiless :=
    {| ResponseForRequest.status := ResponseForRequest.status response;
       ResponseForRequest.headers := ResponseForRequest.headers response;
       ResponseForRequest.contentType :=
         ResponseForRequest.contentType response;
       ResponseForRequest.body := None |} in
  parsedBody response = None /\
  responseHeaders response = typedHeaders response /\
  responseHeaders response = responseHeaders bodiless /\
  (forall (this this' : t) (params : FulfillRequestRequest.t),
      respond (ProtocolError := ProtocolError) response this =
        Await this' (Fetch_fulfillRequest params) ->
      FulfillRequestRequest.body params = None /\
      FulfillRequestRequest.responseHeaders params =
        headersArray (typedHeaders response)) /\
  (forall this : t,
      respond (ProtocolError := ProtocolError) response this =
      respond bodiless this) /\
  (forall (reply : Reply ProtocolError) (this : t),
      invoke handleError (Respond response) reply this =
      invoke handleError (Respond bodiless) reply this).
Proof.
  intros Hbody bodiless.
  assert (Hparsed : parsedBody response = None).
  { unfold parsedBody. now rewrite Hbody. }
  assert (Hheaders : responseHeaders response = typedHeaders response).
  { unfold responseHeaders. now rewrite Hparsed. }
  assert (Hsame : forall this : t,
             respond (ProtocolError := ProtocolError) response this =
             respond bodiless this).
  { intros this. unfold respond, responseHeaders. now rewrite Hparsed. }
  split; [exact Hparsed|]. split; [exact Hheaders|].
  split; [now rewrite Hheaders|].
  split; [|split; [exact Hsame|]].
  - intros this this' params Hsend. unfold respond in Hsend.
    destruct (handled this); [discriminate|].
    injection Hsend as _ <-. simpl.
    now rewrite Hparsed, Hheaders.
  - intros reply this. unfold invoke. cbn [begin]. now rewrite Hsame.
Qed.

Lemma empty_text_body_is_no_body_witness :
  ResponseForRequest.body Sample.empty_text = Some (Text "") /\
  parsedBody Sample.empty_text = None /\
  Obj.has "content-length" (responseHeaders Sample.empty_text) = false.
Proof.
  split; [reflexivity|].
  destruct (empty_text_body_is_no_body Sample.rethrow Sample.empty_text
              eq_refl) as (Hparsed & Hheaders & _).
  split; [exact Hparsed|]. now rewrite Hheaders.
Defined.

(* ================================================================== *)
(** * Further properties of the class                                   *)
(* ================================================================== *)

Import Trace.

(** ** The synchronous prefix of a call *)

Lemma begin_inv {ProtocolError : Type} (resolution : Resolution)
  (this this' : t) (command : Command) :
  begin (ProtocolError := ProtocolError) resolution this =
    Await this' command ->
  handled this = false /\
  this' = set_handled true this /\
  command_requestId command = requestId this /\
  command_method command =
    match resolution with
    | Continue _ => "Fetch.continueRequest"
    | Abort _ => "Fetch.failRequest"
    | Respond _ => "Fetch.fulfillRequest"
    end.
Proof.
  destruct resolution; simpl; unfold continue, abort, respond;
    destruct (handled this); try discriminate;
    intros [= <- <-]; repeat split.
Qed.

(** X1.  A call of continue or of abort is refused exactly when the handled
    flag is true: on a pending instance each of the two sends.  And whichever
    of the three operations sends a command, the instance was pending, the
    flag is up and the event kept when the command goes out, and the command
    is of the protocol method of the operation and carries the request
    identifier of the event. *)
Theorem a_send_comes_from_a_pending_instance {ProtocolError : Type}
  (this : t) :
  (forall overrides : ContinueRequestOverrides.t,
      (exists thrown,
          continue (ProtocolError := ProtocolError) overrides this =
          Throw thrown) <->
      handled this = true) /\
  (forall errorReason : option ErrorReason,
      (exists thrown,
          abort (ProtocolError := ProtocolError) errorReason this =
          Throw thrown) <->
      handled this = true) /\
  (forall (resolution : Resolution) (this' : t) (command : Command),
      begin (ProtocolError := ProtocolError) resolution this =
        Await this' command ->
      handled this = false /\
      handled this' = true /\
      event this' = event this /\
      command_requestId command = requestId this /\
      command_method command =
        match resolution with
        | Continue _ => "Fetch.continueRequest"
        | Abort _ => "Fetch.failRequest"
        | Respond _ => "Fetch.fulfillRequest"
        end).
Proof.
  split; [|split].
  - intros overrides. unfold continue.
    destruct (handled this); split; try reflexivity.
    + intros _. eexists. reflexivity.
    + intros [thrown H]. discriminate H.
    + discriminate.
  - intros errorReason. unfold abort.
    destruct (handled this); split; try reflexivity.
    + intros _. eexists. reflexivity.
    + intros [thrown H]. discriminate H.
    + discriminate.
  - intros resolution this' command Hsend.
    destruct (begin_inv _ _ _ _ Hsend) as (Hpending & -> & Hid & Hmethod).
    now repeat split.
Qed.

Lemma a_send_comes_from_a_pending_instance_witness :
  begin (ProtocolError := string) (Abort (Some TimedOut)) Sample.pending =
    Await Sample.resolved
      (Fetch_failRequest
         {| FailRequestRequest.requestId := "interception-job-1.0";
            FailRequestRequest.errorReason := TimedOut |}) /\
  handled Sample.pending = false /\
  handled Sample.resolved = true.
Proof.
  split; [reflexivity|].
  destruct (proj2 (proj2 (a_send_comes_from_a_pending_instance
                            (ProtocolError := string) Sample.pending))
              (Abort (Some TimedOut)) _ _ eq_refl)
    as (Hpending & Hup & _).
  split; [exact Hpending|exact Hup].
Defined.

(** ** The phases of an instance *)

Section Phases.

Context {ProtocolError : Type}.
Variable handleError : ProtocolError -> Completion ProtocolError.

(** With [a] acknowledgements so far, an instance is pending, or has one
    send in flight, or is resolved; an event moves it among these. *)
Lemma react_phase (ev : Event ProtocolError) (s s' : System)
  (seen : option (Completion ProtocolError)) (a : nat) :
  a = 0 /\ inflight s = 0 /\ handled (object s) = false \/
  a = 0 /\ inflight s = 1 /\ handled (object s) = true \/
  a = 1 /\ inflight s = 0 /\ handled (object s) = true ->
  react handleError ev s = Some (s', seen) ->
  a + acks [ev] = 0 /\ inflight s' = 0 /\ handled (object s') = false \/
  a + acks [ev] = 0 /\ inflight s' = 1 /\ handled (object s') = true \/
  a + acks [ev] = 1 /\ inflight s' = 0 /\ handled (object s') = true.
Proof.
  intros Hphase Hstep. destruct ev as [resolution|[|error]]; simpl in *.
  - rewrite Nat.add_0_r.
    destruct (begin resolution (object s)) as [thrown|this' command] eqn:Hb.
    + injection Hstep as <- _. exact Hphase.
    + apply begin_inv in Hb as (Hpending & -> & _).
      injection Hstep as <- _. simpl.
      destruct Hphase as [(-> & H0 & _)|[(_ & _ & Hup)|(_ & _ & Hup)]];
        try congruence.
      right. left. rewrite H0. now repeat split.
  - destruct (inflight s) as [|n] eqn:Hn; [discriminate|].
    injection Hstep as <- _. simpl.
    destruct Hphase as [(_ & H0 & _)|[(-> & H1 & Hup)|(_ & H0 & _)]];
      try discriminate.
    right. right. repeat split; [congruence|exact Hup].
  - destruct (inflight s) as [|n] eqn:Hn; [discriminate|].
    injection Hstep as <- _. simpl.
    destruct Hphase as [(_ & H0 & _)|[(-> & H1 & Hup)|(_ & H0 & _)]];
      try discriminate.
    left. repeat split. congruence.
Qed.

Lemma acks_cons (ev : Event ProtocolError) (evs : list (Event ProtocolError)) :
  acks (ev :: evs) = acks [ev] + acks evs.
Proof. destruct ev as [resolution|[|error]]; reflexivity. Qed.

Lemma rejects_cons (ev : Event ProtocolError)
  (evs : list (Event ProtocolError)) :
  rejects (ev :: evs) = rejects [ev] + rejects evs.
Proof. destruct ev as [resolution|[|error]]; reflexivity. Qed.

Lemma run_phase (evs : list (Event ProtocolError)) :
  forall (s s' : System) (seen : list (option (Completion ProtocolError)))
         (a : nat),
    a = 0 /\ inflight s = 0 /\ handled (object s) = false \/
    a = 0 /\ inflight s = 1 /\ handled (object s) = true \/
    a = 1 /\ inflight s = 0 /\ handled (object s) = true ->
    run handleError evs s = Some (s', seen) ->
    a + acks evs = 0 /\ inflight s' = 0 /\ handled (object s') = false \/
    a + acks evs = 0 /\ inflight s' = 1 /\ handled (object s') = true \/
    a + acks evs = 1 /\ inflight s' = 0 /\ handled (object s') = true.
Proof.
  induction evs as [|ev rest IH]; intros s s' seen a Hphase Hrun.
  - simpl in Hrun. injection Hrun as <- _. simpl. now rewrite Nat.add_0_r.
  - cbn [run] in Hrun.
    destruct (react handleError ev s) as [[s1 c]|] eqn:Hstep; [|discriminate].
    destruct (run handleError rest s1) as [[s2 more]|] eqn:Hrest;
      [|discriminate].
    injection Hrun as <- _.
    rewrite acks_cons, Nat.add_assoc.
    eapply IH; [|exact Hrest].
    eapply react_phase; eassumption.
Qed.

(** Every command on the wire is acknowledged, rejected or in flight. *)
Lemma run_wire (evs : list (Event ProtocolError)) :
  forall (s s' : System) (seen : list (option (Completion ProtocolError))),
    run handleError evs s = Some (s', seen) ->
    List.length (wire s') + inflight s =
    List.length (wire s) + acks evs + rejects evs + inflight s'.
Proof.
  induction evs as [|ev rest IH]; intros s s' seen Hrun.
  - simpl in Hrun. injection Hrun as <- _. simpl.
    now rewrite !Nat.add_0_r.
  - cbn [run] in Hrun.
    destruct (react handleError ev s) as [[s1 c]|] eqn:Hstep; [|discriminate].
    destruct (run handleError rest s1) as [[s2 more]|] eqn:Hrest;
      [|discriminate].
    injection Hrun as <- _. apply IH in Hrest.
    rewrite acks_cons, rejects_cons.
    destruct ev as [resolution|[|error]]; simpl in Hstep |- *.
    + destruct (begin resolution (object s)) as [thrown|this' command].
      * injection Hstep as <- _. lia.
      * injection Hstep as <- _. simpl in Hrest.
        rewrite length_app in Hrest. simpl in Hrest. lia.
    + destruct (inflight s) as [|n] eqn:Hn; [discriminate|].
      injection Hstep as <- _. simpl in Hrest. lia.
    + destruct (inflight s) as [|n] eqn:Hn; [discriminate|].
      injection Hstep as <- _. simpl in Hrest. lia.
Qed.

End Phases.

(** X2.  From an instance as constructed, after any calls and replies: at
    most one send is in flight, at most one send was ever acknowledged, none
    is in flight once one was acknowledged, and the handled flag is true
    whenever a send is in flight or one was acknowledged. *)
Theorem in_flight_or_acknowledged_is_handled {ProtocolError : Type}
  (handleError : ProtocolError -> Completion ProtocolError)
  (notification : RequestPausedEvent) (evs : list (Event ProtocolError))
  (s : System) (seen : list (option (Completion ProtocolError))) :
  run handleError evs (start notification) = Some (s, seen) ->
  inflight s <= 1 /\
  acks evs <= 1 /\
  (acks evs = 1 -> inflight s = 0) /\
  (inflight s = 1 \/ acks evs = 1 -> handled (object s) = true).
Proof.
  intros Hrun.
  pose proof (run_phase handleError evs (start notification) s seen 0
                (or_introl (conj eq_refl (conj eq_refl eq_refl))) Hrun)
    as Hphase.
  simpl in Hphase.
  destruct Hphase as [(Ha & Hn & Hh)|[(Ha & Hn & Hh)|(Ha & Hn & Hh)]];
    rewrite Ha, Hn, Hh; repeat split; auto; try lia; try discriminate;
      intros [H|H]; discriminate.
Qed.

Lemma in_flight_or_acknowledged_is_handled_witness :
  exists s seen,
    run Sample.rethrow
      [Call (Abort None); Settle (Reject "Target closed");
       Call (Continue Sample.no_overrides); Settle Ack]
      (start Sample.notification) = Some (s, seen) /\
    inflight s <= 1 /\
    handled (object s) = true.
Proof.
  do 2 eexists. split; [reflexivity|].
  destruct (in_flight_or_acknowledged_is_handled Sample.rethrow
              Sample.notification
              [Call (Abort None); Settle (Reject "Target closed");
               Call (Continue Sample.no_overrides); Settle Ack]
              _ _ eq_refl) as (Hone & _ & _ & Hflag).
  split; [exact Hone|]. apply Hflag. right. reflexivity.
Defined.

(** X3.  From an instance as constructed, after any calls and replies, every
    command that went through the session was acknowledged, was rejected or
    is in flight; so the number of commands sent exceeds the number of
    rejected sends by one at most: a further command goes out only after a
    failure. *)
Theorem commands_sent_are_accounted_for {ProtocolError : Type}
  (handleError : ProtocolError -> Completion ProtocolError)
  (notification : RequestPausedEvent) (evs : list (Event ProtocolError))
  (s : System) (seen : list (option (Completion ProtocolError))) :
  run handleError evs (start notification) = Some (s, seen) ->
  List.length (wire s) = acks evs + rejects evs + inflight s /\
  List.length (wire s) <= rejects evs + 1.
Proof.
  intros Hrun.
  pose proof (run_wire handleError evs _ _ _ Hrun) as Hwire.
  pose proof (run_phase handleError evs (start notification) s seen 0
                (or_introl (conj eq_refl (conj eq_refl eq_refl))) Hrun)
    as Hphase.
  simpl in Hwire, Hphase. lia.
Qed.

Lemma commands_sent_are_accounted_for_witness :
  exists s seen,
    run Sample.rethrow
      [Call (Abort None); Call (Respond Sample.hello);
       Settle (Reject "Target closed"); Call (Respond Sample.hello)]
      (start Sample.notification) = Some (s, seen) /\
    List.length (wire s) = 0 + 1 + 1.
Proof.
  do 2 eexists. split; [reflexivity|].
  exact (proj1 (commands_sent_are_accounted_for Sample.rethrow
                  Sample.notification
                  [Call (Abort None); Call (Respond Sample.hello);
                   Settle (Reject "Target closed");
                   Call (Respond Sample.hello)]
                  _ _ eq_refl)).
Defined.

(** ** What never changes *)

Lemma run_event {ProtocolError : Type}
  (handleError : ProtocolError -> Completion ProtocolError)
  (evs : list (Event ProtocolError)) :
  forall (s s' : System) (seen : list (option (Completion ProtocolError)))
         (id : string),
    event_requestId (event (object s)) = id ->
    Forall (fun command => command_requestId command = id) (wire s) ->
    run handleError evs s = Some (s', seen) ->
    event (object s') = event (object s) /\
    Forall (fun command => command_requestId command = id) (wire s').
Proof.
  induction evs as [|ev rest IH]; intros s s' seen id Hid Hwire Hrun.
  - simpl in Hrun. injection Hrun as <- _. now split.
  - cbn [run] in Hrun.
    destruct (react handleError ev s) as [[s1 c]|] eqn:Hstep; [|discriminate].
    destruct (run handleError rest s1) as [[s2 more]|] eqn:Hrest;
      [|discriminate].
    injection Hrun as <- _.
    assert (Hs1 : event (object s1) = event (object s) /\
                  Forall (fun command => command_requestId command = id)
                    (wire s1)).
    { destruct ev as [resolution|reply]; simpl in Hstep.
      - destruct (begin resolution (object s)) as [thrown|this' command]
          eqn:Hb.
        + injection Hstep as <- _. now split.
        + apply begin_inv in Hb as (_ & -> & Hcmd & _).
          injection Hstep as <- _. simpl. split; [reflexivity|].
          apply Forall_app. split; [exact Hwire|].
          constructor; [|constructor]. now rewrite Hcmd.
      - destruct (inflight s); [discriminate|].
        destruct reply as [|error]; simpl in Hstep;
          injection Hstep as <- _; now split. }
    destruct Hs1 as [Hev1 Hwire1].
    destruct (IH s1 s2 more id) as [Hev2 Hwire2];
      [now rewrite Hev1|exact Hwire1|exact Hrest|].
    split; [congruence|exact Hwire2].
Qed.

(** X4.  From an instance constructed on a notification, after any calls and
    replies, the event and with it every accessor ([requestId], [networkId],
    [request], [frameId], [resourceType]) is the one of the notification,
    and every command that went through the session carries the request
    identifier of the notification. *)
Theorem event_and_request_id_never_change {ProtocolError : Type}
  (handleError : ProtocolError -> Completion ProtocolError)
  (notification : RequestPausedEvent) (evs : list (Event ProtocolError))
  (s : System) (seen : list (option (Completion ProtocolError))) :
  run handleError evs (start notification) = Some (s, seen) ->
  event (object s) = notification /\
  requestId (object s) = event_requestId notification /\
  networkId (object s) = event_networkId notification /\
  request (object s) = event_request notification /\
  frameId (object s) = event_frameId notification /\
  resourceType (object s) = event_resourceType notification /\
  Forall (fun command =>
            command_requestId command = event_requestId notification)
    (wire s).
Proof.
  intros Hrun.
  destruct (run_event handleError evs (start notification) s seen
              (event_requestId notification) eq_refl (Forall_nil _) Hrun)
    as [Hev Hwire].
  simpl in Hev.
  unfold requestId, networkId, request, frameId, resourceType.
  rewrite Hev. repeat split. exact Hwire.
Qed.

Lemma event_and_request_id_never_change_witness :
  exists s seen,
    run Sample.rethrow
      [Call (Respond Sample.hello); Settle (Reject "Target closed");
       Call (Abort None)]
      (start Sample.notification) = Some (s, seen) /\
    event (object s) = Sample.notification /\
    Forall (fun command => command_requestId command = "interception-job-1.0")
      (wire s).
Proof.
  do 2 eexists. split; [reflexivity|].
  destruct (event_and_request_id_never_change Sample.rethrow
              Sample.notification
              [Call (Respond Sample.hello); Settle (Reject "Target closed");
               Call (Abort None)]
              _ _ eq_refl) as (Hev & _ & _ & _ & _ & _ & Hwire).
  split; [exact Hev|exact Hwire].
Defined.

(** ** The header map and the body of [respond], in full *)

Lemma lower_unit_idem (c : ascii) :
  JS.lower_unit (JS.lower_unit c) = JS.lower_unit c.
Proof. destruct c as [[] [] [] [] [] [] [] []]; reflexivity. Qed.

Lemma toLowerCase_idem (s : string) :
  JS.toLowerCase (JS.toLowerCase s) = JS.toLowerCase s.
Proof.
  induction s as [|c rest IH]; simpl; [reflexivity|].
  now rewrite lower_unit_idem, IH.
Qed.

Lemma headersArray_name (headers : Obj.t HeaderValue)
  (entry : HeaderEntry) :
  In entry (headersArray headers) -> In (name entry) (Obj.keys headers).
Proof.
  unfold headersArray. intros Hin.
  apply in_flat_map in Hin as ([k hv] & Hentry & Hval).
  apply in_map_iff in Hval as (v & <- & _). simpl.
  unfold Obj.keys. change k with (fst (k, hv)). now apply in_map.
Qed.

Lemma responseHeaders_keys (response : ResponseForRequest.t) (k : string) :
  In k (Obj.keys (responseHeaders response)) ->
  k = "content-length" \/ k = "content-type" \/
  exists headers header,
    ResponseForRequest.headers response = Some headers /\
    In header (Obj.keys headers) /\ k = JS.toLowerCase header.
Proof.
  intros Hin.
  assert (Htyped : k = "content-length" \/
                   In k (Obj.keys (typedHeaders response))).
  { unfold responseHeaders in Hin.
    destruct (parsedBody response) as [parsed|]; [|now right].
    destruct (JS.truthy (contentLength parsed) &&
              negb (Obj.has "content-length" (typedHeaders response)));
      [|now right].
    apply keys_set in Hin as [[-> _]|Hin]; [now left|now right]. }
  destruct Htyped as [->|Htyped]; [now left|]. right.
  assert (Hfolded : k = "content-type" \/
                    In k (Obj.keys (foldedHeaders response))).
  { unfold typedHeaders in Htyped.
    destruct (JS.if_truthy (ResponseForRequest.contentType response));
      [|now right].
    apply keys_set in Htyped as [[-> _]|Htyped]; [now left|now right]. }
  destruct Hfolded as [->|Hfolded]; [now left|]. right.
  unfold foldedHeaders in Hfolded.
  destruct (ResponseForRequest.headers response) as [headers|];
    [|destruct Hfolded].
  apply fold_keys in Hfolded as [[]|(_ & header & Hheader & ->)].
  now exists headers, header.
Qed.

(** X5.  In respond, every name of the built header map, and so every name
    of the header list of the command, is in lowercase: it is its own
    lowercase form. *)
Theorem header_names_are_lowercase (response : ResponseForRequest.t) :
  (forall k : string,
      In k (Obj.keys (responseHeaders response)) -> JS.toLowerCase k = k) /\
  (forall entry : HeaderEntry,
      In entry (headersArray (responseHeaders response)) ->
      JS.toLowerCase (name entry) = name entry).
Proof.
  assert (Hkeys : forall k : string,
             In k (Obj.keys (responseHeaders response)) ->
             JS.toLowerCase k = k).
  { intros k Hin.
    apply responseHeaders_keys in Hin
      as [->|[->|(headers & header & _ & _ & ->)]];
      [reflexivity|reflexivity|apply toLowerCase_idem]. }
  split; [exact Hkeys|].
  intros entry Hin. now apply Hkeys, headersArray_name.
Qed.

Lemma header_names_are_lowercase_witness :
  In "set-cookie" (Obj.keys (responseHeaders Sample.mixed_case)) /\
  JS.toLowerCase "set-cookie" = "set-cookie".
Proof.
  assert (Hin : In "set-cookie"
                  (Obj.keys (responseHeaders Sample.mixed_case)))
    by (left; reflexivity).
  split; [exact Hin|].
  exact (proj1 (header_names_are_lowercase Sample.mixed_case) _ Hin).
Defined.

(** X6.  In respond, the steps for the content type and the content length
    touch their own entry only: every other entry of the built header map is
    the one the loop over the caller's headers made.  The map has a
    content-length entry exactly when the loop made one or a body was parsed
    with a byte length other than zero; without a parsed body nothing is
    injected.  And when no truthy content type is given, the content-type
    entry is the one of the loop. *)
Theorem other_headers_pass_through (response : ResponseForRequest.t) :
  (forall k : string,
      k <> "content-type" -> k <> "content-length" ->
      Obj.get k (responseHeaders response) =
      Obj.get k (foldedHeaders response)) /\
  Obj.has "content-length" (responseHeaders response) =
    (Obj.has "content-length" (foldedHeaders response)
     || JS.truthy (option_map contentLength (parsedBody response))) /\
  (parsedBody response = None ->
   responseHeaders response = typedHeaders response) /\
  (JS.if_truthy (ResponseForRequest.contentType response) = None ->
   Obj.get "content-type" (responseHeaders response) =
   Obj.get "content-type" (foldedHeaders response)).
Proof.
  split; [|split; [|split]].
  - intros k Htype Hlength.
    now rewrite response_get_other, typed_get_other.
  - assert (Htyped : Obj.has "content-length" (typedHeaders response) =
                     Obj.has "content-length" (foldedHeaders response)).
    { unfold Obj.has. now rewrite typed_get_other by discriminate. }
    rewrite <- Htyped. unfold responseHeaders.
    destruct (parsedBody response) as [parsed|]; simpl;
      [|now rewrite orb_false_r].
    change (JS.truthy (Some (contentLength parsed)))
      with (JS.truthy (contentLength parsed)).
    destruct (JS.truthy (contentLength parsed));
      destruct (Obj.has "content-length" (typedHeaders response)) eqn:Hhas;
      simpl; try exact Hhas.
    unfold Obj.has. now rewrite get_set_same by discriminate.
  - intros Hnone. unfold responseHeaders. now rewrite Hnone.
  - intros Hnone. rewrite response_get_other by discriminate.
    unfold typedHeaders. now rewrite Hnone.
Qed.

Lemma other_headers_pass_through_witness :
  Obj.get "x-test" (responseHeaders Sample.binary_hi) = Some (Single "a") /\
  Obj.has "content-length" (responseHeaders Sample.binary_hi) = true /\
  parsedBody (Sample.typed "text/css") = None /\
  responseHeaders (Sample.typed "text/css") =
    [("content-type", Single "text/css")].
Proof.
  destruct (other_headers_pass_through Sample.binary_hi)
    as (Hother & Hlength & _).
  destruct (other_headers_pass_through (Sample.typed "text/css"))
    as (_ & _ & Hnobody & _).
  split; [|split; [|split]].
  - rewrite (Hother "x-test") by discriminate. reflexivity.
  - rewrite Hlength. reflexivity.
  - reflexivity.
  - rewrite (Hnobody eq_refl). reflexivity.
Defined.

(** X7.  In respond on a pending instance, the body field of the command is
    absent exactly when the caller gave no body or the empty text; a binary
    body, even an empty one, and a text that is not empty always give a body
    field, the encoding of what was parsed.  A command whose content-length
    entry was injected always has a body field. *)
Theorem body_field_follows_truthiness {ProtocolError : Type}
  (response : ResponseForRequest.t) (this : t) :
  handled this = false ->
  exists params,
    respond (ProtocolError := ProtocolError) response this =
      Await (set_handled true this) (Fetch_fulfillRequest params) /\
    (FulfillRequestRequest.body params = None <->
     ResponseForRequest.body response = None \/
     ResponseForRequest.body response = Some (Text "")) /\
    (forall body : Body,
        ResponseForRequest.body response = Some body ->
        body <> Text "" ->
        FulfillRequestRequest.body params =
          Some (base64 (getResponse body))) /\
    (Obj.has "content-length" (typedHeaders response) = false ->
     Obj.has "content-length" (responseHeaders response) = true ->
     FulfillRequestRequest.body params <> None).
Proof.
  intros H. eexists. split; [apply (respond_sends response this H)|].
  cbn [FulfillRequestRequest.body]. unfold parsedBody.
  destruct (ResponseForRequest.body response) as [[[|c text]|bytes]|] eqn:Hb;
    simpl.
  - split; [split; [now right|reflexivity]|]. split.
    + intros body [= <-] Hne. now contradiction Hne.
    + intros Hnone Hsome. unfold responseHeaders, parsedBody in Hsome.
      rewrite Hb in Hsome. simpl in Hsome. congruence.
  - split; [split; [discriminate|intros [|]; discriminate]|]. split.
    + now intros body [= <-] _.
    + discriminate.
  - split; [split; [discriminate|intros [|]; discriminate]|]. split.
    + now intros body [= <-] _.
    + discriminate.
  - split; [split; [now left|reflexivity]|]. split.
    + discriminate.
    + intros Hnone Hsome. unfold responseHeaders, parsedBody in Hsome.
      rewrite Hb in Hsome. simpl in Hsome. congruence.
Qed.

Lemma body_field_follows_truthiness_witness :
  handled Sample.pending = false /\
  exists params,
    respond (ProtocolError := string) Sample.binary_hi Sample.pending =
      Await Sample.resolved (Fetch_fulfillRequest params) /\
    FulfillRequestRequest.body params = Some "aGk=".
Proof.
  split; [reflexivity|].
  destruct (body_field_follows_truthiness (ProtocolError := string)
              Sample.binary_hi Sample.pending eq_refl)
    as (params & Hsend & _ & Hbody & _).
  exists params. split; [exact Hsend|].
  exact (Hbody (Binary [Byte.x68; Byte.x69]) eq_refl ltac:(discriminate)).
Defined.

(** ** The headers of [continue] *)

Lemma headersArray_widen (headers : Obj.t string) :
  headersArray (widen headers) =
  map (fun '(n, v) => {| name := n; value := v |}) headers.
Proof.
  unfold headersArray, widen.
  induction headers as [|[n v] rest IH]; simpl; [reflexivity|].
  now rewrite IH.
Qed.

(** X8.  In continue on a pending instance, a headers override always gives
    a headers field, also when the object is empty (the list is then empty,
    not absent): the list has one entry per property of the override, and
    its entries are exactly the name and value pairs of the override. *)
Theorem continue_flattens_headers {ProtocolError : Type}
  (overrides : ContinueRequestOverrides.t) (headers : Obj.t string)
  (this : t) :
  handled this = false ->
  ContinueRequestOverrides.headers overrides = Some headers ->
  exists params entries,
    continue (ProtocolError := ProtocolError) overrides this =
      Await (set_handled true this) (Fetch_continueRequest params) /\
    ContinueRequestRequest.headers params = Some entries /\
    List.length entries = List.length headers /\
    (headers = [] -> entries = []) /\
    (forall n v : string,
        In {| name := n; value := v |} entries <-> In (n, v) headers).
Proof.
  intros H Hheaders. unfold continue. rewrite H, Hheaders.
  do 2 eexists. split; [reflexivity|].
  cbn [ContinueRequestRequest.headers option_map].
  split; [reflexivity|]. rewrite headersArray_widen.
  split; [apply length_map|]. split; [now intros ->|].
  intros n v. rewrite in_map_iff. split.
  - intros ([n' v'] & [= -> ->] & Hin). exact Hin.
  - intros Hin. now exists (n, v).
Qed.

Lemma continue_flattens_headers_witness :
  handled Sample.pending = false /\
  exists params,
    continue (ProtocolError := string) (Sample.headers_override [])
      Sample.pending =
      Await Sample.resolved (Fetch_continueRequest params) /\
    ContinueRequestRequest.headers params = Some [].
Proof.
  split; [reflexivity|].
  destruct (continue_flattens_headers (ProtocolError := string)
              (Sample.headers_override []) [] Sample.pending
              eq_refl eq_refl)
    as (params & entries & Hsend & Hfield & _ & Hempty & _).
  exists params. split; [exact Hsend|].
  now rewrite Hfield, (Hempty eq_refl).
Defined.

(** ** One awaited call after another *)

(** X9.  On a pending instance, whatever the handler of errors does: after a
    call whose send was rejected, a second awaited call does exactly what it
    would have done in place of the first one; after a call whose send was
    acknowledged, a second call sends nothing, fails with the
    already-handled error and leaves the instance handled. *)
Theorem second_call_after_first {ProtocolError : Type}
  (handleError : ProtocolError -> Completion ProtocolError)
  (first second : Resolution) (error : ProtocolError)
  (reply : Reply ProtocolError) (this : t) :
  handled this = false ->
  invoke handleError second reply
    (final (invoke handleError first (Reject error) this)) =
  invoke handleError second reply this /\
  invoke handleError second reply
    (final (invoke handleError first Ack this)) =
  {| final := set_handled true this; sent := [];
     outcome := Throws (Error "Request has already been handled") |}.
Proof.
  intros H. split.
  - destruct (invoke_pending handleError first (Reject error) this H)
      as (command & _ & Hfirst).
    now rewrite Hfirst.
  - destruct (invoke_pending handleError first Ack this H)
      as (command & _ & Hfirst).
    rewrite Hfirst. now apply invoke_handled.
Qed.

Lemma second_call_after_first_witness :
  handled Sample.pending = false /\
  sent (invoke Sample.rethrow (Abort None) Ack
          (final (invoke Sample.rethrow (Respond Sample.hello)
                    (Reject "Target closed") Sample.pending))) =
    [Fetch_failRequest
       {| FailRequestRequest.requestId := "interception-job-1.0";
          FailRequestRequest.errorReason := Failed |}] /\
  sent (invoke Sample.rethrow (Abort None) Ack
          (final (invoke Sample.rethrow (Respond Sample.hello) Ack
                    Sample.pending))) = [].
Proof.
  destruct (second_call_after_first Sample.rethrow (Respond Sample.hello)
              (Abort None) "Target closed" Ack Sample.pending eq_refl)
    as [Hretry Hrefused].
  split; [reflexivity|]. split.
  - now rewrite Hretry.
  - now rewrite Hrefused.
Defined.
